(** * papr: timestamp normalisation, set-on-insert clean-up, projections

    A shallow embedding of [src/utils.ts]:
    - [timestampUpdateFilter], [timestampBulkWriteOperation] and
      [cleanSetOnInsert] are translated function by function over a small
      fragment of JavaScript values;
    - [ProjectionType] is translated as a function on record shapes.

    JavaScript objects are finite maps from property names to values
    ([gmap string value]): equality of maps is equality of contents, which is
    the "value-identical" (deep equality) of the specification. *)

From Stdlib Require Import Ascii.
From stdpp Require Import gmap strings list fin_maps pretty.

Set Warnings "-register-all".
Local Open Scope string_scope.

(** ** The fragment of JavaScript used by [utils.ts] *)

Module JS.

(** Values.  Numbers are the integral ones (no fraction, no [NaN]); a string
    is a sequence of code units below 256; a [VDate] carries its epoch
    milliseconds; objects are plain objects (prototype [Object.prototype]);
    arrays have no holes. *)
Inductive value : Type :=
  | VUndefined
  | VNull
  | VBool (b : bool)
  | VNum (n : Z)
  | VStr (s : string)
  | VDate (ms : Z)
  | VObj (o : gmap string value)
  | VArr (a : list value).

(** [ToBoolean]: [undefined], [null], [false], [0] and [''] are falsy, every
    object (also a [Date], an empty object, an empty array) is truthy. *)
Definition truthy (v : value) : bool :=
  match v with
  | VUndefined | VNull => false
  | VBool b => b
  | VNum n => negb (n =? 0)%Z
  | VStr s => negb (String.eqb s "")
  | VDate _ | VObj _ | VArr _ => true
  end.

Definition nullish (v : value) : bool :=
  match v with
  | VUndefined | VNull => true
  | _ => false
  end.

(** [Array.isArray(v)]. *)
Definition isArray (v : value) : bool :=
  match v with
  | VArr _ => true
  | _ => false
  end.

(** The index properties ["0"], ["1"], ... of an array or of a string. *)
Definition indexed (l : list value) : gmap string value :=
  list_to_map (imap (fun (i : nat) (v : value) => (pretty i, v)) l).

Fixpoint chars (s : string) : list value :=
  match s with
  | EmptyString => []
  | String c rest => VStr (String c "") :: chars rest
  end.

(** The own enumerable string-keyed properties of a value: what an object
    spread [{...v}] copies.  Spreading [undefined], [null], a boolean, a
    number or a [Date] copies nothing. *)
Definition own_props (v : value) : gmap string value :=
  match v with
  | VObj o => o
  | VArr a => indexed a
  | VStr s => indexed (chars s)
  | _ => ∅
  end.

(** One spread element of an object literal: [{ ...acc, ...v }].  Later
    properties overwrite earlier ones. *)
Definition spread (v : value) (acc : gmap string value) : gmap string value :=
  own_props v ∪ acc.

(** [c && v] where [c] is a boolean: the literal [v] or [false]. *)
Definition guard (c : bool) (v : value) : value :=
  if c then v else VBool false.

(** [o.k] on an object held as a map: [undefined] when absent. *)
Definition prop (o : gmap string value) (k : string) : value :=
  default VUndefined (o !! k).

(** [v.k].  [None] is the [TypeError] of reading a property of [undefined]
    or [null].  Only own enumerable properties are looked at: every name the
    source reads ([update], [document], [replacement], [$set], [$unset],
    [$currentDate], [$setOnInsert], [updatedAt], [createdAt]) is neither an
    index, nor [length], nor a name found on a prototype. *)
Definition get (v : value) (k : string) : option value :=
  if nullish v then None else Some (prop (own_props v) k).

(** [v?.k]. *)
Definition get_opt (v : value) (k : string) : value :=
  if nullish v then VUndefined else prop (own_props v) k.

(** [Object.keys(o)], in some order. *)
Definition Object_keys (o : gmap string value) : list string :=
  (map_to_list o).*1.

(** The property names every plain object inherits from [Object.prototype]
    (ECMAScript, with its Annex B). *)
Definition Object_prototype_names : list string :=
  [ "constructor"; "hasOwnProperty"; "isPrototypeOf"; "propertyIsEnumerable";
    "toLocaleString"; "toString"; "valueOf"; "__proto__";
    "__defineGetter__"; "__defineSetter__"; "__lookupGetter__";
    "__lookupSetter__" ].

Definition inherited (k : string) : bool :=
  bool_decide (k ∈ Object_prototype_names).

(** [k in o] for a plain object [o]: own properties, then the prototype. *)
Definition js_in (k : string) (o : gmap string value) : bool :=
  match o !! k with
  | Some _ => true
  | None => inherited k
  end.

(** [k in v].  On a primitive the operator throws a [TypeError]; arrays and
    dates inherit names that depend on the engine's version and are left out
    of the fragment.  Both give [None]. *)
Definition has_in (k : string) (v : value) : option bool :=
  match v with
  | VObj o => Some (js_in k o)
  | _ => None
  end.

End JS.

Import JS.

(** ** The wall clock

    [new Date()] reads the clock.  [now i] is the value of the [i]-th reading
    since the start of the run; a computation threads the number of readings
    made so far and may end in a [TypeError] ([None]). *)

Definition M (A : Type) : Type := (nat → Z) → nat → option (A * nat).

Definition ret {A} (a : A) : M A := fun _ n => Some (a, n).

Definition bind {A B} (m : M A) (f : A → M B) : M B :=
  fun now n =>
    match m now n with
    | Some (a, n') => f a now n'
    | None => None
    end.

Definition lift {A} (o : option A) : M A :=
  fun _ n =>
    match o with
    | Some a => Some (a, n)
    | None => None
    end.

Definition new_Date : M value := fun now n => Some (VDate (now n), S n).

Declare Scope clock_scope.
Delimit Scope clock_scope with clock.
Notation "'let*' x := m 'in' k" := (bind m (fun x => k))
  (at level 10, x name, m at level 100, k at level 200) : clock_scope.

(** ** [utils.ts] *)

(** [!update.$set?.field && !update.$unset?.field]: the test both timestamp
    functions make before they schedule [field] themselves.  It looks at the
    truthiness of what the caller's [$set] and [$unset] hold for [field]. *)
Definition not_targeted (update : value) (field : string) : option bool :=
  s ← get update "$set";
  if truthy (get_opt s field) then Some false
  else u ← get update "$unset"; Some (negb (truthy (get_opt u field))).

(** [{ ...update.$currentDate,
       ...(!update.$set?.updatedAt && !update.$unset?.updatedAt
            && { updatedAt: true }) }] *)
Definition currentDate_group (update : value) : option (gmap string value) :=
  cd ← get update "$currentDate";
  c ← not_targeted update "updatedAt";
  Some (spread (guard c (VObj {[ "updatedAt" := VBool true ]})) (spread cd ∅)).

(** [...(Object.keys(group).length > 0 && { name: group })] *)
Definition attach (name : string) (group : gmap string value)
    (acc : gmap string value) : gmap string value :=
  spread (guard (0 <? List.length (Object_keys group))%nat
                (VObj {[ name := VObj group ]})) acc.

Definition timestampUpdateFilter (update : value) : option value :=
  currentDate ← currentDate_group update;
  Some (VObj (attach "$currentDate" currentDate (spread update ∅))).

Local Open Scope clock_scope.

(** [{ ...update.$setOnInsert,
       ...(!update.$set?.createdAt && !update.$unset?.createdAt
            && { createdAt: new Date() }) }]: the clock is read only when the
    guard holds. *)
Definition setOnInsert_group (update : value) : M (gmap string value) :=
  let* soi := lift (get update "$setOnInsert") in
  let* c := lift (not_targeted update "createdAt") in
  let* stamp := (if c then
                   let* d := new_Date in
                   ret (VObj {[ "createdAt" := d ]})
                 else ret (VBool false)) in
  ret (spread stamp (spread soi ∅)).

(** The [updateOne] and the [updateMany] branch of
    [timestampBulkWriteOperation]; the two differ in the tag only. *)
Definition timestampUpdateModel (tag : string)
    (operation : gmap string value) : M (gmap string value) :=
  let* update := lift (get (prop operation tag) "update") in
  if isArray update then ret operation
  else
    let* currentDate := lift (currentDate_group update) in
    let* setOnInsert := setOnInsert_group update in
    ret {[ tag :=
           VObj (<[ "update" :=
                    VObj (attach "$setOnInsert" setOnInsert
                            (attach "$currentDate" currentDate
                               (spread update ∅))) ]>
                   (spread (prop operation tag) ∅)) ]}.

(** [{ createdAt: new Date(), updatedAt: new Date(), ...doc }] *)
Definition timestamped (doc : value) (created updated : value)
    : gmap string value :=
  spread doc (<[ "updatedAt" := updated ]> (<[ "createdAt" := created ]> ∅)).

Definition timestampBulkWriteOperation (operation : gmap string value)
    : M (gmap string value) :=
  if js_in "insertOne" operation then
    let* created := new_Date in
    let* updated := new_Date in
    let* document := lift (get (prop operation "insertOne") "document") in
    ret {[ "insertOne" :=
           VObj {[ "document" :=
                   VObj (timestamped document created updated) ]} ]}
  else if js_in "updateOne" operation then
    timestampUpdateModel "updateOne" operation
  else if js_in "updateMany" operation then
    timestampUpdateModel "updateMany" operation
  else if js_in "replaceOne" operation then
    let* created := new_Date in
    let* updated := new_Date in
    let* replacement :=
      lift (get (prop operation "replaceOne") "replacement") in
    ret {[ "replaceOne" :=
           VObj (<[ "replacement" :=
                    VObj (timestamped replacement created updated) ]>
                   (spread (prop operation "replaceOne") ∅)) ]}
  else ret operation.

Local Close Scope clock_scope.

(** [key in (update.name || {})] *)
Definition in_group (key : string) (update : value) (name : string)
    : option bool :=
  g ← get update name;
  has_in key (if truthy g then g else VObj ∅).

(** The condition of the loop of [cleanSetOnInsert]; [||] evaluates its
    right operand only when the left one is false. *)
Definition conflicts (key : string) (update : value) : option bool :=
  b ← in_group key update "$set";
  if b : bool then Some true else
  b ← in_group key update "$push";
  if b : bool then Some true else
  b ← in_group key update "$inc";
  if b : bool then Some true else
  in_group key update "$unset".

(** [for (const key of keys) { if (...) delete $setOnInsert[key]; }] over a
    snapshot [keys] of the property names. *)
Fixpoint cleanLoop (keys : list string) (update : value)
    (setOnInsert : gmap string value) : option (gmap string value) :=
  match keys with
  | [] => Some setOnInsert
  | key :: rest =>
      c ← conflicts key update;
      cleanLoop rest update
        (if c : bool then delete key setOnInsert else setOnInsert)
  end.

(** [cleanSetOnInsert] works in place on a standalone group: [$setOnInsert]
    is not the object [update] itself, and what is returned is the group
    after the deletions. *)
Definition cleanSetOnInsert (setOnInsert : gmap string value)
    (update : value) : option (gmap string value) :=
  cleanLoop (Object_keys setOnInsert) update setOnInsert.

(** The same loop for a caller that passes as [$setOnInsert] the very object
    the update document holds under [name]: the source deletes in place, so
    each later read of [update.name] sees the deletions made so far. *)
Fixpoint cleanLoop_shared (name : string) (keys : list string)
    (update setOnInsert : gmap string value) : option (gmap string value) :=
  match keys with
  | [] => Some setOnInsert
  | key :: rest =>
      c ← conflicts key (VObj (<[ name := VObj setOnInsert ]> update));
      cleanLoop_shared name rest update
        (if c : bool then delete key setOnInsert else setOnInsert)
  end.

Definition cleanSetOnInsert_shared (name : string)
    (setOnInsert update : gmap string value) : option (gmap string value) :=
  cleanLoop_shared name (Object_keys setOnInsert) update setOnInsert.

(** ** [ProjectionType]

    [ProjectionType] computes a type from a type.  Types enter as shapes: a
    record shape is a finite map from field names to the shapes of the
    fields. *)

Module Projection.

Inductive shape : Type :=
  | Scalar (ty : string)
  | Struct (fields : gmap string shape).

Definition fields_of (s : shape) : gmap string shape :=
  match s with
  | Struct fs => fs
  | Scalar _ => ∅
  end.

(** The segments of a dotted path: ["a.b"] is [["a"; "b"]]. *)
Fixpoint segments (path : string) : list string :=
  match path with
  | EmptyString => [""]
  | String c rest =>
      if Ascii.eqb c "."%char then "" :: segments rest
      else match segments rest with
           | h :: t => String c h :: t
           | [] => [String c ""]
           end
  end.

(** [keyof Projection & string]: the paths of a projection; the numbers
    they are mapped to play no part. *)
Definition keyof (projection : gmap string Z) : list (list string) :=
  segments <$> (map_to_list projection).*1.

(** The rests of the paths that start at field [f]. *)
Definition tails_of (f : string) (paths : list (list string))
    : list (list string) :=
  omap (fun p => match p with
                 | h :: t => if String.eqb h f then Some t else None
                 | [] => None
                 end) paths.

(** Modelled from the spec: [DeepPick] of [./DeepPick], which is not part of
    the sources at hand.  The result keeps exactly the top-level fields that
    are roots of at least one included path; an object-typed field is
    narrowed, recursively, to the sub-paths requested, and kept whole when a
    path ends at it; fields no path mentions are left out. *)
Fixpoint DeepPick (s : shape) (paths : list (list string)) {struct s}
    : shape :=
  match s with
  | Scalar ty => Scalar ty
  | Struct fs =>
      Struct (map_imap (fun f sf =>
        match tails_of f paths with
        | [] => None
        | tails =>
            if existsb (fun t => bool_decide (t = [])) tails then Some sf
            else Some (DeepPick sf tails)
        end) fs)
  end.

(** [InferIdType] and [WithId] of the mongodb driver's declarations:
    [WithId<T> = EnhancedOmit<T, '_id'> & { _id: InferIdType<T> }], where the
    identifier has its declared type, and [ObjectId] when none is declared. *)
Definition InferIdType (s : shape) : shape :=
  default (Scalar "ObjectId") (fields_of s !! "_id").

Definition WithId (s : shape) : shape :=
  Struct (<[ "_id" := InferIdType s ]> (delete "_id" (fields_of s))).

(** [undefined extends Projection
       ? WithId<TSchema>
       : WithId<DeepPick<TSchema, keyof Projection & string>>];
    [None] is the projection [undefined]. *)
Definition ProjectionType (TSchema : shape)
    (Projection : option (gmap string Z)) : shape :=
  match Projection with
  | None => WithId TSchema
  | Some p => WithId (DeepPick TSchema (keyof p))
  end.

End Projection.

(** ** Reading the definitions *)

(** The tag the chain of [in] tests of [timestampBulkWriteOperation] selects:
    the first of the four that is a property of the operation. *)
Definition variant (operation : gmap string value) : option string :=
  head (filter (fun tag => js_in tag operation = true)
               ["insertOne"; "updateOne"; "updateMany"; "replaceOne"]).

(** The entries of the operator group [name] of an update document. *)
Definition group (update : gmap string value) (name : string)
    : gmap string value :=
  own_props (prop update name).

(** The caller's [$set] or [$unset] group has the key [field]. *)
Definition mentions (update : gmap string value) (field : string) : Prop :=
  ∃ g s, g ∈ ["$set"; "$unset"] ∧ update !! g = Some (VObj s)
         ∧ is_Some (s !! field).

(** The caller's [$set] or [$unset] group gives [field] a truthy value. *)
Definition marks (update : gmap string value) (field : string) : Prop :=
  ∃ g s v, g ∈ ["$set"; "$unset"] ∧ update !! g = Some (VObj s)
           ∧ s !! field = Some v ∧ truthy v = true.

(** The boolean the source computes for [field]. *)
Definition targeted (update : gmap string value) (field : string) : bool :=
  truthy (get_opt (prop update "$set") field)
  || truthy (get_opt (prop update "$unset") field).

(** The [$currentDate] group computed for an operator document. *)
Definition stamped_currentDate (u : gmap string value) : gmap string value :=
  if targeted u "updatedAt" then group u "$currentDate"
  else <[ "updatedAt" := VBool true ]> (group u "$currentDate").

(** The [$setOnInsert] group computed for an operator document when the
    clock shows [t]. *)
Definition stamped_setOnInsert (t : Z) (u : gmap string value)
    : gmap string value :=
  if targeted u "createdAt" then group u "$setOnInsert"
  else <[ "createdAt" := VDate t ]> (group u "$setOnInsert").

(** The number of clock readings made for an operator document. *)
Definition readings (u : gmap string value) : nat :=
  if targeted u "createdAt" then 0 else 1.

(** The update document built by the [updateOne] and [updateMany] branches. *)
Definition stamped_update (t : Z) (u : gmap string value)
    : gmap string value :=
  attach "$setOnInsert" (stamped_setOnInsert t u)
    (attach "$currentDate" (stamped_currentDate u) u).

(** The operation is of the [updateOne] or of the [updateMany] variant. *)
Definition update_variant (operation : gmap string value) (tag : string)
    : Prop :=
  variant operation = Some tag ∧ tag ∈ ["updateOne"; "updateMany"].

(** The groups [cleanSetOnInsert] looks into. *)
Definition conflict_groups : list string := ["$set"; "$push"; "$inc"; "$unset"].

(** Each of these groups is absent, falsy, or a plain object: the update
    documents on which [in] does not throw. *)
Definition plain_groups (u : gmap string value) : Prop :=
  ∀ name, name ∈ conflict_groups →
    truthy (prop u name) = false ∨ ∃ o, u !! name = Some (VObj o).

(** [key] is a key of one of the four groups of [u]. *)
Definition in_conflict (key : string) (u : gmap string value) : Prop :=
  ∃ name o, name ∈ conflict_groups ∧ u !! name = Some (VObj o)
            ∧ is_Some (o !! key).

(** What the loop of [cleanSetOnInsert] tests for [key] on an update
    document with plain groups. *)
Definition conflictb (key : string) (u : gmap string value) : bool :=
  js_in key (group u "$set") || js_in key (group u "$push")
  || js_in key (group u "$inc") || js_in key (group u "$unset").

(** ** [getIds]

    [[...ids].map((id) => new ObjectId(id))].  [ids] is an array or a [Set];
    either way the spread lists its members in iteration order, which is the
    list given here.  The constructor belongs to the mongodb driver and may
    throw; it is the parameter [new_ObjectId], and [map] stops at the first
    member on which it throws. *)
Definition getIds {Id ObjectId : Type} (new_ObjectId : Id → option ObjectId)
    (ids : list Id) : option (list ObjectId) :=
  mapM new_ObjectId ids.

(** Membership in the list of the four groups. *)
Ltac in_groups :=
  unfold conflict_groups;
  repeat first [apply list_elem_of_here | apply list_elem_of_further].

Section Basics.
Implicit Types (o u acc g : gmap string value) (v : value) (k : string).

Lemma spread_obj_empty o : spread (VObj o) ∅ = o.
Proof. unfold spread. simpl. apply (right_id_L ∅ (∪)). Qed.

Lemma spread_false acc : spread (VBool false) acc = acc.
Proof. unfold spread. simpl. apply (left_id_L ∅ (∪)). Qed.

Lemma spread_singleton k v acc : spread (VObj {[ k := v ]}) acc = <[ k := v ]> acc.
Proof. unfold spread. simpl. symmetry. apply insert_union_singleton_l. Qed.

Lemma spread_empty v : spread v ∅ = own_props v.
Proof. unfold spread. apply (right_id_L ∅ (∪)). Qed.

Lemma keys_test g :
  (0 <? List.length (Object_keys g))%nat = negb (bool_decide (g = ∅)).
Proof.
  unfold Object_keys. rewrite length_fmap.
  destruct (map_to_list g) as [|kv l] eqn:E.
  - apply map_to_list_empty_iff in E. subst g. by rewrite bool_decide_eq_true_2.
  - rewrite bool_decide_eq_false_2; [done|].
    intros ->. by rewrite map_to_list_empty in E.
Qed.

Lemma attach_empty name acc : attach name ∅ acc = acc.
Proof.
  unfold attach. rewrite keys_test, bool_decide_eq_true_2 by done.
  apply spread_false.
Qed.

Lemma attach_nonempty name g acc :
  g ≠ ∅ → attach name g acc = <[ name := VObj g ]> acc.
Proof.
  intros Hg. unfold attach. rewrite keys_test, bool_decide_eq_false_2 by done.
  apply spread_singleton.
Qed.

(** Attaching a group touches its own name only. *)
Lemma attach_lookup_ne name g acc k :
  k ≠ name → attach name g acc !! k = acc !! k.
Proof.
  intros Hk. destruct (decide (g = ∅)) as [->|Hg].
  - by rewrite attach_empty.
  - rewrite attach_nonempty by done. by rewrite lookup_insert_ne.
Qed.

(** After attaching, the group [name] has the entries of [g] as soon as
    the group it may replace had them. *)
Lemma group_attach name g acc :
  (g = ∅ → group acc name = ∅) → group (attach name g acc) name = g.
Proof.
  intros Hg. unfold group, prop. destruct (decide (g = ∅)) as [->|Hne].
  - rewrite attach_empty. by apply Hg.
  - rewrite attach_nonempty by done. by rewrite lookup_insert_eq.
Qed.

Lemma get_obj o k : get (VObj o) k = Some (prop o k).
Proof. done. Qed.

Lemma not_targeted_obj u field :
  not_targeted (VObj u) field = Some (negb (targeted u field)).
Proof.
  unfold not_targeted, targeted. rewrite !get_obj. simpl.
  by destruct (truthy (get_opt (prop u "$set") field)).
Qed.

Lemma marks_targeted u field : marks u field → targeted u field = true.
Proof.
  intros (g & s & v & Hg & Hu & Hs & Hv). unfold targeted, prop.
  apply orb_true_iff.
  repeat (apply elem_of_cons in Hg as [->|Hg]);
    [left|right|by apply elem_of_nil in Hg];
    rewrite Hu; unfold get_opt, prop; simpl; by rewrite Hs.
Qed.

End Basics.

(** A few evaluations of the fragment. *)
Example spread_array :
  spread (VArr [VStr "x"; VStr "y"]) ∅
  = <[ "0" := VStr "x" ]> {[ "1" := VStr "y" ]}.
Proof. vm_compute; reflexivity. Qed.

Example in_finds_inherited_names :
  js_in "toString" ∅ = true ∧ js_in "createdAt" ∅ = false
  ∧ js_in "createdAt" {[ "createdAt" := VUndefined ]} = true.
Proof. by vm_compute. Qed.

Example empty_string_is_falsy :
  truthy (VStr "") = false ∧ truthy (VNum 0) = false
  ∧ truthy (VObj ∅) = true ∧ truthy (VDate 0) = true.
Proof. done. Qed.

Example segments_dotted :
  Projection.segments "address.city" = ["address"; "city"].
Proof. reflexivity. Qed.

Example delete_updates_pass_through (now : nat → Z) (n : nat) :
  timestampBulkWriteOperation
    {[ "deleteOne" := VObj {[ "filter" := VObj ∅ ]} ]} now n
  = Some ({[ "deleteOne" := VObj {[ "filter" := VObj ∅ ]} ]}, n).
Proof. vm_compute; reflexivity. Qed.

Example nested_projection :
  Projection.ProjectionType
    (Projection.Struct
       (<[ "_id" := Projection.Scalar "string" ]>
          (<[ "name" := Projection.Scalar "string" ]>
             {[ "address" :=
                Projection.Struct
                  (<[ "city" := Projection.Scalar "string" ]>
                     {[ "zip" := Projection.Scalar "number" ]}) ]})))
    (Some {[ "address.city" := 1%Z ]})
  = Projection.Struct
      (<[ "_id" := Projection.Scalar "ObjectId" ]>
         {[ "address" :=
            Projection.Struct {[ "city" := Projection.Scalar "string" ]} ]}).
Proof. vm_compute; reflexivity. Qed.

(** ** [timestampUpdateFilter] *)

Section UpdateFilter.
Implicit Types (u r : gmap string value).

Lemma currentDate_group_obj u :
  currentDate_group (VObj u) = Some (stamped_currentDate u).
Proof.
  unfold currentDate_group, stamped_currentDate.
  rewrite get_obj, not_targeted_obj. simpl. rewrite spread_empty.
  destruct (targeted u "updatedAt"); simpl.
  - apply f_equal, spread_false.
  - apply f_equal, spread_singleton.
Qed.

Lemma timestampUpdateFilter_obj u :
  timestampUpdateFilter (VObj u)
  = Some (VObj (attach "$currentDate" (stamped_currentDate u) u)).
Proof.
  unfold timestampUpdateFilter. rewrite currentDate_group_obj. simpl.
  by rewrite spread_obj_empty.
Qed.

Lemma targeted_attach name g u field :
  name ≠ "$set" → name ≠ "$unset" →
  targeted (attach name g u) field = targeted u field.
Proof.
  intros H1 H2. unfold targeted, prop.
  by rewrite !attach_lookup_ne.
Qed.

Lemma stamped_currentDate_empty u :
  stamped_currentDate u = ∅ → group u "$currentDate" = ∅.
Proof.
  unfold stamped_currentDate. destruct (targeted u "updatedAt"); [done|].
  intros H. by apply insert_non_empty in H.
Qed.

(** Normalising a normalised document computes the same group again. *)
Lemma stamped_currentDate_attach u :
  stamped_currentDate (attach "$currentDate" (stamped_currentDate u) u)
  = stamped_currentDate u.
Proof.
  set (cd := stamped_currentDate u).
  unfold stamped_currentDate at 1.
  rewrite targeted_attach by done.
  rewrite group_attach by apply stamped_currentDate_empty.
  subst cd. unfold stamped_currentDate.
  destruct (targeted u "updatedAt"); [done|].
  apply insert_insert_eq.
Qed.

(** Arrays.  The index properties of an array are decimal numerals, so no
    array has a property whose name starts with [$]. *)
Lemma pretty_N_go_no_dollar (x : N) (acc rest : string) :
  acc ≠ String "$" rest → pretty_N_go x acc ≠ String "$" rest.
Proof.
  revert acc. induction (N.lt_wf_0 x) as [x _ IH]. intros acc Hacc.
  destruct (decide (x = 0%N)) as [->|Hx].
  - by rewrite pretty_N_go_0.
  - rewrite pretty_N_go_step by lia. apply IH.
    + apply N.div_lt; lia.
    + unfold pretty_N_char. repeat case_match; discriminate.
Qed.

Lemma pretty_nat_no_dollar (i : nat) (rest : string) :
  pretty i ≠ String "$" rest.
Proof.
  unfold pretty, pretty_nat, pretty, pretty_N.
  case_decide; [discriminate|]. by apply pretty_N_go_no_dollar.
Qed.

Lemma indexed_no_dollar (l : list value) (rest : string) :
  indexed l !! String "$" rest = None.
Proof.
  unfold indexed. apply not_elem_of_list_to_map_1.
  rewrite list_elem_of_fmap. intros ([k v] & Hk & Hin). simpl in Hk.
  apply elem_of_lookup_imap_1 in Hin as (i & w & [= -> ->] & _).
  by eapply pretty_nat_no_dollar.
Qed.

(** On an array the function does not throw and builds a plain object: the
    index properties of the array, with [$currentDate] added. *)
Lemma timestampUpdateFilter_array (stages : list value) :
  timestampUpdateFilter (VArr stages)
  = Some (VObj (<[ "$currentDate" := VObj {[ "updatedAt" := VBool true ]} ]>
                  (indexed stages))).
Proof.
  unfold timestampUpdateFilter, currentDate_group, not_targeted, get.
  simpl. unfold prop. rewrite !indexed_no_dollar. simpl.
  rewrite !spread_empty. simpl.
  by rewrite attach_nonempty by apply insert_non_empty.
Qed.

End UpdateFilter.

(** C9.  [timestampUpdateFilter] is idempotent on operator documents: the
    normal form of an operator document [u] is again an operator document, and
    normalising it once more returns it unchanged. *)
Theorem timestampUpdateFilter_idempotent (u : gmap string value) :
  ∃ r, timestampUpdateFilter (VObj u) = Some (VObj r)
       ∧ timestampUpdateFilter (VObj r) = Some (VObj r).
Proof.
  eexists. split; [apply timestampUpdateFilter_obj|].
  rewrite timestampUpdateFilter_obj, stamped_currentDate_attach.
  set (cd := stamped_currentDate u).
  destruct (decide (cd = ∅)) as [->|Hne].
  - by rewrite !attach_empty.
  - rewrite !attach_nonempty by done. by rewrite insert_insert_eq.
Qed.

(** ** [timestampBulkWriteOperation] *)

Section Bulk.
Implicit Types (op m u : gmap string value) (tag : string).
Variable now : nat → Z.

Lemma js_in_own tag op :
  inherited tag = false → js_in tag op = true ↔ is_Some (op !! tag).
Proof.
  intros Hi. unfold js_in. destruct (op !! tag); rewrite ?Hi.
  - split; eauto.
  - split; [done|]. by intros [? ?].
Qed.

(** The dispatch, read off [variant]. *)
Lemma dispatch_insertOne op :
  variant op = Some "insertOne" → js_in "insertOne" op = true.
Proof.
  unfold variant. rewrite !filter_cons, filter_nil.
  repeat case_decide; intros; by simplify_eq/=.
Qed.

Lemma dispatch_update op tag :
  update_variant op tag →
  timestampBulkWriteOperation op = timestampUpdateModel tag op.
Proof.
  intros [Hv Ht]. unfold variant in Hv. unfold timestampBulkWriteOperation.
  rewrite !filter_cons, filter_nil in Hv.
  repeat case_decide; simplify_eq/=;
    repeat match goal with
           | H : js_in _ _ = true |- _ => rewrite H
           | H : js_in _ _ ≠ true |- _ => apply not_true_is_false in H; rewrite H
           end; try done;
    repeat (apply elem_of_cons in Ht as [Ht|Ht]; [done|]);
    by apply elem_of_nil in Ht.
Qed.

Lemma dispatch_replaceOne op :
  variant op = Some "replaceOne" →
  js_in "insertOne" op = false ∧ js_in "updateOne" op = false
  ∧ js_in "updateMany" op = false ∧ js_in "replaceOne" op = true.
Proof.
  unfold variant. rewrite !filter_cons, filter_nil.
  repeat case_decide; intros; simplify_eq/=;
    repeat match goal with
           | H : js_in _ _ ≠ true |- _ => apply not_true_is_false in H
           end; done.
Qed.

Lemma setOnInsert_group_obj u n :
  setOnInsert_group (VObj u) now n
  = Some (stamped_setOnInsert (now n) u, readings u + n).
Proof.
  unfold setOnInsert_group, stamped_setOnInsert, readings, bind, lift, ret.
  rewrite get_obj, not_targeted_obj. simpl. rewrite spread_empty.
  destruct (targeted u "createdAt"); simpl.
  - by rewrite spread_false.
  - by rewrite spread_singleton.
Qed.

(** The two update branches on an operator document. *)
Lemma timestampUpdateModel_obj tag op m u n :
  op !! tag = Some (VObj m) → m !! "update" = Some (VObj u) →
  timestampUpdateModel tag op now n
  = Some ({[ tag := VObj (<[ "update" := VObj (stamped_update (now n) u) ]> m) ]},
          readings u + n).
Proof.
  intros Hop Hm. unfold timestampUpdateModel, bind, lift, ret, prop.
  rewrite Hop. simpl. unfold prop. rewrite Hm. simpl.
  rewrite currentDate_group_obj, setOnInsert_group_obj.
  by rewrite !spread_obj_empty.
Qed.

(** The two update branches on a pipeline. *)
Lemma timestampUpdateModel_pipeline tag op m stages n :
  op !! tag = Some (VObj m) → m !! "update" = Some (VArr stages) →
  timestampUpdateModel tag op now n = Some (op, n).
Proof.
  intros Hop Hm. unfold timestampUpdateModel, bind, lift, ret, prop.
  rewrite Hop. simpl. unfold prop. by rewrite Hm.
Qed.

End Bulk.

(** C1.  The scenario of the specification.  Normalising
    [{ updateOne: { filter: { status: 'open' },
                    update: { $set: { status: 'closed' } } } }]
    when the clock shows [now n] keeps the filter and yields the update
    [{ $set: { status: 'closed' }, $currentDate: { updatedAt: true },
       $setOnInsert: { createdAt: now n } }]; and [cleanSetOnInsert] applied to
    that [$setOnInsert] group and to this update with [createdAt: X] added to
    its [$set] group returns the group without [createdAt] (no key is left),
    whatever [X] is. *)
Theorem scenario_updateOne_then_clean (now : nat → Z) (n : nat) (X : value) :
  timestampBulkWriteOperation
    {[ "updateOne" :=
       VObj (<[ "filter" := VObj {[ "status" := VStr "open" ]} ]>
               {[ "update" :=
                  VObj {[ "$set" := VObj {[ "status" := VStr "closed" ]} ]} ]}) ]}
    now n
  = Some ({[ "updateOne" :=
             VObj (<[ "filter" := VObj {[ "status" := VStr "open" ]} ]>
                     {[ "update" :=
                        VObj (<[ "$set" := VObj {[ "status" := VStr "closed" ]} ]>
                               (<[ "$currentDate" :=
                                   VObj {[ "updatedAt" := VBool true ]} ]>
                                  {[ "$setOnInsert" :=
                                     VObj {[ "createdAt" := VDate (now n) ]} ]})) ]}) ]},
          S n)
  ∧ cleanSetOnInsert {[ "createdAt" := VDate (now n) ]}
      (VObj (<[ "$set" := VObj (<[ "createdAt" := X ]>
                                  {[ "status" := VStr "closed" ]}) ]>
               (<[ "$currentDate" := VObj {[ "updatedAt" := VBool true ]} ]>
                  {[ "$setOnInsert" :=
                     VObj {[ "createdAt" := VDate (now n) ]} ]})))
    = Some ∅.
Proof. split; vm_compute; reflexivity. Qed.

(** C2, as stated, fails for [timestampUpdateFilter]: it has no pipeline
    check, and on the one-stage pipeline [[{ $set: { a: 1 } }]] it returns the
    object [{ 0: { $set: { a: 1 } }, $currentDate: { updatedAt: true } }],
    which is not the pipeline. *)
Lemma timestampUpdateFilter_pipeline_changed :
  timestampUpdateFilter (VArr [VObj {[ "$set" := VObj {[ "a" := VNum 1 ]} ]}])
  = Some (VObj (<[ "0" := VObj {[ "$set" := VObj {[ "a" := VNum 1 ]} ]} ]>
                  {[ "$currentDate" := VObj {[ "updatedAt" := VBool true ]} ]}))
  ∧ timestampUpdateFilter (VArr [VObj {[ "$set" := VObj {[ "a" := VNum 1 ]} ]}])
    ≠ Some (VArr [VObj {[ "$set" := VObj {[ "a" := VNum 1 ]} ]}]).
Proof. split; [vm_compute; reflexivity | vm_compute; discriminate]. Qed.

(** C2, amended.  For every [updateOne] and every [updateMany] operation
    whose update is an array of pipeline stages, [timestampBulkWriteOperation]
    returns the operation itself: no directive is added, nothing else changes,
    and the clock is not read. *)
Theorem bulk_pipeline_passthrough (now : nat → Z) (n : nat)
    (op : gmap string value) (tag : string) (m : gmap string value)
    (stages : list value) :
  update_variant op tag →
  op !! tag = Some (VObj m) →
  m !! "update" = Some (VArr stages) →
  timestampBulkWriteOperation op now n = Some (op, n).
Proof.
  intros Hv Hop Hm. rewrite (dispatch_update op tag Hv).
  by eapply timestampUpdateModel_pipeline.
Qed.

(** An [updateMany] operation with a one-stage pipeline. *)
Lemma bulk_pipeline_passthrough_witness :
  timestampBulkWriteOperation
    {[ "updateMany" :=
       VObj (<[ "filter" := VObj ∅ ]>
               {[ "update" := VArr [VObj {[ "$set" := VObj {[ "a" := VNum 1 ]} ]}] ]}) ]}
    Z.of_nat 0
  = Some ({[ "updateMany" :=
             VObj (<[ "filter" := VObj ∅ ]>
                     {[ "update" := VArr [VObj {[ "$set" := VObj {[ "a" := VNum 1 ]} ]}] ]}) ]},
          0).
Proof.
  apply (bulk_pipeline_passthrough Z.of_nat 0 _ "updateMany"
           (<[ "filter" := VObj ∅ ]>
              {[ "update" := VArr [VObj {[ "$set" := VObj {[ "a" := VNum 1 ]} ]}] ]})
           [VObj {[ "$set" := VObj {[ "a" := VNum 1 ]} ]}]).
  - split; [vm_compute; reflexivity|]. apply list_elem_of_further, list_elem_of_here.
  - vm_compute; reflexivity.
  - vm_compute; reflexivity.
Defined.

(** C3, as stated, fails twice.  With [{ $unset: { updatedAt: '' } }] the
    group [$unset] mentions [updatedAt], its value is falsy, and the result
    schedules [updatedAt] in [$currentDate].  With
    [{ $set: { updatedAt: d }, $currentDate: { updatedAt: true } }] the
    caller's own [$currentDate] entry is kept. *)
Lemma currentDate_updatedAt_despite_mention :
  (mentions {[ "$unset" := VObj {[ "updatedAt" := VStr "" ]} ]} "updatedAt"
   ∧ ∃ r, timestampUpdateFilter
            (VObj {[ "$unset" := VObj {[ "updatedAt" := VStr "" ]} ]})
          = Some (VObj r)
          ∧ group r "$currentDate" !! "updatedAt" = Some (VBool true))
  ∧ (mentions (<[ "$set" := VObj {[ "updatedAt" := VDate 5 ]} ]>
                 {[ "$currentDate" := VObj {[ "updatedAt" := VBool true ]} ]})
              "updatedAt"
     ∧ ∃ r, timestampUpdateFilter
              (VObj (<[ "$set" := VObj {[ "updatedAt" := VDate 5 ]} ]>
                       {[ "$currentDate" :=
                          VObj {[ "updatedAt" := VBool true ]} ]}))
            = Some (VObj r)
            ∧ group r "$currentDate" !! "updatedAt" = Some (VBool true)).
Proof.
  split; split.
  - exists "$unset", {[ "updatedAt" := VStr "" ]}.
    split; [apply list_elem_of_further, list_elem_of_here|].
    split; [vm_compute; reflexivity | by eexists].
  - eexists. split; [vm_compute; reflexivity | vm_compute; reflexivity].
  - exists "$set", {[ "updatedAt" := VDate 5 ]}.
    split; [apply list_elem_of_here|].
    split; [vm_compute; reflexivity | by eexists].
  - eexists. split; [vm_compute; reflexivity | vm_compute; reflexivity].
Qed.

(** C3, amended.  For every operator document whose [$set] or [$unset] group
    gives [updatedAt] a truthy value, normalisation adds nothing to
    [$currentDate]: the [$currentDate] group of the result of
    [timestampUpdateFilter], and of the update produced by
    [timestampBulkWriteOperation] for an [updateOne] or [updateMany]
    operation, has exactly the entries of the caller's own [$currentDate]
    group; so it contains [updatedAt] only if the caller put it there. *)
Theorem currentDate_unchanged_when_marked (u : gmap string value) :
  marks u "updatedAt" →
  (∃ r, timestampUpdateFilter (VObj u) = Some (VObj r)
        ∧ group r "$currentDate" = group u "$currentDate")
  ∧ (∀ (now : nat → Z) (n : nat) (op : gmap string value) (tag : string)
       (m : gmap string value),
       update_variant op tag →
       op !! tag = Some (VObj m) →
       m !! "update" = Some (VObj u) →
       ∃ m' r n',
         timestampBulkWriteOperation op now n = Some ({[ tag := VObj m' ]}, n')
         ∧ m' !! "update" = Some (VObj r)
         ∧ group r "$currentDate" = group u "$currentDate").
Proof.
  intros Hm%marks_targeted.
  assert (Hcd : stamped_currentDate u = group u "$currentDate")
    by (unfold stamped_currentDate; by rewrite Hm).
  split.
  - eexists. split; [apply timestampUpdateFilter_obj|].
    rewrite Hcd. by apply group_attach.
  - intros now n op tag m Hv Hop Hu. do 3 eexists.
    rewrite (dispatch_update op tag Hv).
    split; [by eapply timestampUpdateModel_obj|].
    split; [apply lookup_insert_eq|].
    unfold stamped_update, group, prop at 1.
    rewrite attach_lookup_ne by done. rewrite Hcd.
    by apply group_attach.
Qed.

(** The update [{ $set: { updatedAt: d } }]. *)
Lemma currentDate_unchanged_when_marked_witness :
  marks {[ "$set" := VObj {[ "updatedAt" := VDate 5 ]} ]} "updatedAt"
  ∧ ∃ r, timestampUpdateFilter
           (VObj {[ "$set" := VObj {[ "updatedAt" := VDate 5 ]} ]})
         = Some (VObj r)
         ∧ group r "$currentDate"
           = group {[ "$set" := VObj {[ "updatedAt" := VDate 5 ]} ]}
                   "$currentDate".
Proof.
  assert (H : marks {[ "$set" := VObj {[ "updatedAt" := VDate 5 ]} ]}
                    "updatedAt").
  { exists "$set", {[ "updatedAt" := VDate 5 ]}, (VDate 5).
    split; [apply list_elem_of_here|].
    split; [vm_compute; reflexivity|].
    split; [vm_compute; reflexivity | reflexivity]. }
  split; [exact H|].
  exact (proj1 (currentDate_unchanged_when_marked _ H)).
Defined.

Section InsertReplace.
Implicit Types (op m d : gmap string value).
Variable now : nat → Z.

Lemma timestamped_obj d c u :
  timestamped (VObj d) c u
  = d ∪ <[ "updatedAt" := u ]> (<[ "createdAt" := c ]> ∅).
Proof. done. Qed.

Lemma bulk_insertOne op m d n :
  variant op = Some "insertOne" →
  op !! "insertOne" = Some (VObj m) → m !! "document" = Some (VObj d) →
  timestampBulkWriteOperation op now n
  = Some ({[ "insertOne" :=
             VObj {[ "document" :=
                     VObj (timestamped (VObj d) (VDate (now n))
                                       (VDate (now (S n)))) ]} ]},
          S (S n)).
Proof.
  intros Hv%dispatch_insertOne Hop Hm.
  unfold timestampBulkWriteOperation. rewrite Hv.
  unfold bind, new_Date, lift, ret, prop. rewrite Hop. simpl.
  unfold prop. by rewrite Hm.
Qed.

Lemma bulk_replaceOne op m d n :
  variant op = Some "replaceOne" →
  op !! "replaceOne" = Some (VObj m) → m !! "replacement" = Some (VObj d) →
  timestampBulkWriteOperation op now n
  = Some ({[ "replaceOne" :=
             VObj (<[ "replacement" :=
                      VObj (timestamped (VObj d) (VDate (now n))
                                        (VDate (now (S n)))) ]> m) ]},
          S (S n)).
Proof.
  intros (H1 & H2 & H3 & H4)%dispatch_replaceOne Hop Hm.
  unfold timestampBulkWriteOperation. rewrite H1, H2, H3, H4.
  unfold bind, new_Date, lift, ret, prop. rewrite Hop. simpl.
  unfold prop. rewrite Hm. simpl. by rewrite spread_obj_empty.
Qed.

(** Caller fields win over the two injected ones. *)
Lemma timestamped_lookup d c u k :
  timestamped (VObj d) c u !! k
  = match d !! k with
    | Some v => Some v
    | None => if decide (k = "updatedAt") then Some u
              else if decide (k = "createdAt") then Some c else None
    end.
Proof.
  rewrite timestamped_obj, lookup_union.
  destruct (d !! k) as [v|] eqn:E.
  - by rewrite union_Some_l.
  - rewrite (left_id_L None _).
    repeat case_decide; subst; simplify_map_eq; done.
Qed.

End InsertReplace.

(** C5.  For every [insertOne] and every [replaceOne] operation,
    [timestampBulkWriteOperation] returns an operation of the same variant
    whose document, respectively replacement, contains [createdAt] and
    [updatedAt]: a field the caller supplied keeps the caller's value (as does
    every other field of the caller), and a field the caller did not supply
    holds the time read during the normalisation, the first reading for
    [createdAt] and the second for [updatedAt]. *)
Theorem insert_replace_timestamps (now : nat → Z) (n : nat)
    (op : gmap string value) (tag field : string) (m d : gmap string value) :
  (tag, field) ∈ [("insertOne", "document"); ("replaceOne", "replacement")] →
  variant op = Some tag →
  op !! tag = Some (VObj m) →
  m !! field = Some (VObj d) →
  ∃ m' d',
    timestampBulkWriteOperation op now n = Some ({[ tag := VObj m' ]}, S (S n))
    ∧ m' !! field = Some (VObj d')
    ∧ d' !! "createdAt" = Some (default (VDate (now n)) (d !! "createdAt"))
    ∧ d' !! "updatedAt" = Some (default (VDate (now (S n))) (d !! "updatedAt"))
    ∧ ∀ k v, d !! k = Some v → d' !! k = Some v.
Proof.
  intros Ht Hv Hop Hm.
  assert (Hd : ∀ c u,
    timestamped (VObj d) c u !! "createdAt" = Some (default c (d !! "createdAt"))
    ∧ timestamped (VObj d) c u !! "updatedAt" = Some (default u (d !! "updatedAt"))
    ∧ ∀ k v, d !! k = Some v → timestamped (VObj d) c u !! k = Some v).
  { intros c u. split; [|split].
    - rewrite timestamped_lookup. by destruct (d !! "createdAt").
    - rewrite timestamped_lookup. by destruct (d !! "updatedAt").
    - intros k v Hk. by rewrite timestamped_lookup, Hk. }
  apply elem_of_cons in Ht as [[= -> ->]|Ht];
    [|apply elem_of_cons in Ht as [[= -> ->]|Ht]; [|by apply elem_of_nil in Ht]].
  - do 2 eexists. split; [by eapply bulk_insertOne|].
    split; [apply lookup_singleton_eq | apply Hd].
  - do 2 eexists. split; [by eapply bulk_replaceOne|].
    split; [apply lookup_insert_eq | apply Hd].
Qed.

(** An [insertOne] whose document supplies [createdAt]. *)
Lemma insert_replace_timestamps_witness :
  ∃ m' d',
    timestampBulkWriteOperation
      {[ "insertOne" :=
         VObj {[ "document" := VObj {[ "createdAt" := VDate 5 ]} ]} ]}
      Z.of_nat 0
    = Some ({[ "insertOne" := VObj m' ]}, 2)
    ∧ m' !! "document" = Some (VObj d')
    ∧ d' !! "createdAt"
      = Some (default (VDate 0)
                (({[ "createdAt" := VDate 5 ]} : gmap string value) !! "createdAt"))
    ∧ d' !! "updatedAt"
      = Some (default (VDate 1)
                (({[ "createdAt" := VDate 5 ]} : gmap string value) !! "updatedAt"))
    ∧ ∀ k v, ({[ "createdAt" := VDate 5 ]} : gmap string value) !! k = Some v →
             d' !! k = Some v.
Proof.
  apply (insert_replace_timestamps Z.of_nat 0 _ "insertOne" "document"
           {[ "document" := VObj {[ "createdAt" := VDate 5 ]} ]}
           {[ "createdAt" := VDate 5 ]}).
  - apply list_elem_of_here.
  - vm_compute; reflexivity.
  - vm_compute; reflexivity.
  - vm_compute; reflexivity.
Defined.

Section UpdateBranches.
Implicit Types (op m u : gmap string value).

(** The [$setOnInsert] group of the update the two branches build: the
    caller's entries, and [createdAt] at the time read unless [$set] or
    [$unset] gives [createdAt] a truthy value. *)
Lemma stamped_update_setOnInsert t u :
  group (stamped_update t u) "$setOnInsert" = stamped_setOnInsert t u.
Proof.
  unfold stamped_update. apply group_attach.
  unfold stamped_setOnInsert.
  destruct (targeted u "createdAt").
  - intros H. unfold group, prop. by rewrite attach_lookup_ne.
  - intros H. by apply insert_non_empty in H.
Qed.

(** The computed group is attached when it has a key, and only then. *)
Lemma stamped_update_setOnInsert_attached t u :
  stamped_update t u !! "$setOnInsert"
  = if decide (stamped_setOnInsert t u = ∅) then u !! "$setOnInsert"
    else Some (VObj (stamped_setOnInsert t u)).
Proof.
  unfold stamped_update. case_decide as H.
  - rewrite H, attach_empty. by rewrite attach_lookup_ne.
  - rewrite attach_nonempty by done. apply lookup_insert_eq.
Qed.

Lemma stamped_update_currentDate_attached t u :
  stamped_update t u !! "$currentDate"
  = if decide (stamped_currentDate u = ∅) then u !! "$currentDate"
    else Some (VObj (stamped_currentDate u)).
Proof.
  unfold stamped_update. rewrite attach_lookup_ne by done. case_decide as H.
  - by rewrite H, attach_empty.
  - rewrite attach_nonempty by done. apply lookup_insert_eq.
Qed.

(** Every other operator group is the caller's. *)
Lemma stamped_update_other t u g :
  g ≠ "$currentDate" → g ≠ "$setOnInsert" → stamped_update t u !! g = u !! g.
Proof.
  intros H1 H2. unfold stamped_update. by rewrite !attach_lookup_ne.
Qed.

End UpdateBranches.

(** C6.  The claim on the failing input.  The caller's [$unset] group targets
    [createdAt] with the marker [''], and [timestampBulkWriteOperation] still
    merges [createdAt] into [$setOnInsert]: from
    [{ updateOne: { filter: {}, update: { $unset: { createdAt: '' } } } }]
    it builds the update
    [{ $unset: { createdAt: '' }, $currentDate: { updatedAt: true },
       $setOnInsert: { createdAt: now n } }]. *)
Theorem setOnInsert_createdAt_despite_unset (now : nat → Z) (n : nat) :
  timestampBulkWriteOperation
    {[ "updateOne" :=
       VObj (<[ "filter" := VObj ∅ ]>
               {[ "update" :=
                  VObj {[ "$unset" := VObj {[ "createdAt" := VStr "" ]} ]} ]}) ]}
    now n
  = Some ({[ "updateOne" :=
             VObj (<[ "filter" := VObj ∅ ]>
                     {[ "update" :=
                        VObj (<[ "$unset" := VObj {[ "createdAt" := VStr "" ]} ]>
                               (<[ "$currentDate" :=
                                   VObj {[ "updatedAt" := VBool true ]} ]>
                                  {[ "$setOnInsert" :=
                                     VObj {[ "createdAt" := VDate (now n) ]} ]})) ]}) ]},
          S n).
Proof. vm_compute; reflexivity. Qed.

(** C7.  For every [updateOne] and every [updateMany] operation whose update
    is an operator document, [timestampBulkWriteOperation] returns an operation
    of the same variant in which every field of the descriptor other than
    [update] (the filter, the options) is the caller's, and in whose update
    every operator group other than [$currentDate] and [$setOnInsert] is the
    caller's. *)
Theorem bulk_update_frame (now : nat → Z) (n : nat)
    (op : gmap string value) (tag : string) (m u : gmap string value) :
  update_variant op tag →
  op !! tag = Some (VObj m) →
  m !! "update" = Some (VObj u) →
  ∃ m' u' n',
    timestampBulkWriteOperation op now n = Some ({[ tag := VObj m' ]}, n')
    ∧ m' !! "update" = Some (VObj u')
    ∧ (∀ k, k ≠ "update" → m' !! k = m !! k)
    ∧ (∀ g, g ≠ "$currentDate" → g ≠ "$setOnInsert" → u' !! g = u !! g).
Proof.
  intros Hv Hop Hu. do 3 eexists.
  rewrite (dispatch_update op tag Hv).
  split; [by eapply timestampUpdateModel_obj|].
  split; [apply lookup_insert_eq|]. split.
  - intros k Hk. by rewrite lookup_insert_ne.
  - intros g H1 H2. by apply stamped_update_other.
Qed.

(** The [updateOne] operation of the scenario. *)
Lemma bulk_update_frame_witness :
  ∃ m' u' n',
    timestampBulkWriteOperation
      {[ "updateOne" :=
         VObj (<[ "filter" := VObj {[ "status" := VStr "open" ]} ]>
                 {[ "update" :=
                    VObj {[ "$set" := VObj {[ "status" := VStr "closed" ]} ]} ]}) ]}
      Z.of_nat 0
    = Some ({[ "updateOne" := VObj m' ]}, n')
    ∧ m' !! "update" = Some (VObj u')
    ∧ (∀ k, k ≠ "update" →
            m' !! k
            = (<[ "filter" := VObj {[ "status" := VStr "open" ]} ]>
                 {[ "update" :=
                    VObj {[ "$set" := VObj {[ "status" := VStr "closed" ]} ]} ]}
               : gmap string value) !! k)
    ∧ (∀ g, g ≠ "$currentDate" → g ≠ "$setOnInsert" →
            u' !! g
            = ({[ "$set" := VObj {[ "status" := VStr "closed" ]} ]}
               : gmap string value) !! g).
Proof.
  apply (bulk_update_frame Z.of_nat 0 _ "updateOne").
  - split; [vm_compute; reflexivity | apply list_elem_of_here].
  - vm_compute; reflexivity.
  - vm_compute; reflexivity.
Defined.

(** ** [cleanSetOnInsert] *)

Section Clean.
Implicit Types (s u r o : gmap string value) (key k name : string).

Lemma falsy_own_props (v : value) : truthy v = false → own_props v = ∅.
Proof. destruct v as [| |b|z|str| | |]; try done. by destruct str. Qed.

Lemma in_group_plain key u name :
  truthy (prop u name) = false ∨ (∃ o, u !! name = Some (VObj o)) →
  in_group key (VObj u) name = Some (js_in key (group u name)).
Proof.
  unfold in_group, group. rewrite get_obj. simpl. intros [Hf|[o Ho]].
  - rewrite Hf. simpl. by rewrite falsy_own_props.
  - unfold prop. by rewrite Ho.
Qed.

Lemma conflicts_plain key u :
  plain_groups u → conflicts key (VObj u) = Some (conflictb key u).
Proof.
  intros Hp. unfold conflicts, conflictb.
  rewrite !in_group_plain by (apply Hp; in_groups).
  simpl.
  by destruct (js_in key (group u "$set")), (js_in key (group u "$push")),
    (js_in key (group u "$inc")).
Qed.

(** A group holds [k] when the document has that group as an object with
    the key [k]. *)
Lemma group_lookup_is_Some u name k :
  truthy (prop u name) = false ∨ (∃ o, u !! name = Some (VObj o)) →
  is_Some (group u name !! k)
  ↔ ∃ o, u !! name = Some (VObj o) ∧ is_Some (o !! k).
Proof.
  unfold group. intros [Hf|[o Ho]].
  - rewrite falsy_own_props by done. rewrite lookup_empty. split.
    + by intros [? ?].
    + intros (o & Ho & _). unfold prop in Hf. by rewrite Ho in Hf.
  - unfold prop. rewrite Ho. simpl. split; [by eauto|].
    by intros (o' & [= <-] & ?).
Qed.

Lemma js_in_true k o : js_in k o = true ↔ is_Some (o !! k) ∨ inherited k = true.
Proof.
  unfold js_in. destruct (o !! k) as [v|].
  - split; eauto.
  - split; [by right|]. by intros [[? ?]|?].
Qed.

(** The test succeeds for the keys of the four groups and for the names
    every object inherits. *)
Lemma conflictb_true key u :
  plain_groups u →
  conflictb key u = true ↔ in_conflict key u ∨ inherited key = true.
Proof.
  intros Hp.
  assert (Hg : ∀ name, name ∈ conflict_groups →
    js_in key (group u name) = true
    ↔ (∃ o, u !! name = Some (VObj o) ∧ is_Some (o !! key))
      ∨ inherited key = true).
  { intros name Hn. rewrite js_in_true.
    by rewrite group_lookup_is_Some by (by apply Hp). }
  unfold conflictb. rewrite !orb_true_iff.
  rewrite (Hg "$set"), (Hg "$push"), (Hg "$inc"), (Hg "$unset") by in_groups.
  unfold in_conflict. split.
  - intros [[[H|H]|H]|H]; destruct H as [(o & Ho & Hk)|Hi];
      try (by right); left; eexists _, o; (split; [|done]); in_groups.
  - intros [(name & o & Hn & Ho & Hk)|Hi]; [|by left; left; left; right].
    unfold conflict_groups in Hn.
    apply elem_of_cons in Hn as [->|Hn]; [left; left; left; left; by eauto|].
    apply elem_of_cons in Hn as [->|Hn]; [left; left; right; left; by eauto|].
    apply elem_of_cons in Hn as [->|Hn]; [left; right; left; by eauto|].
    apply elem_of_cons in Hn as [->|Hn]; [right; left; by eauto|].
    by apply elem_of_nil in Hn.
Qed.

(** The loop: a key of the snapshot goes when its test succeeds; nothing
    else changes. *)
Lemma cleanLoop_plain keys u s :
  plain_groups u →
  ∃ r, cleanLoop keys (VObj u) s = Some r
       ∧ ∀ k, r !! k = if bool_decide (k ∈ keys) && conflictb k u then None
                       else s !! k.
Proof.
  intros Hp. revert s. induction keys as [|key rest IH]; intros s.
  - exists s. split; [done|]. intros k.
    rewrite bool_decide_eq_false_2; [done|]. by intros ?%elem_of_nil.
  - simpl. rewrite conflicts_plain by done. simpl.
    destruct (IH (if conflictb key u then delete key s else s)) as (r & Hr & Hl).
    exists r. split; [done|]. intros k. rewrite Hl.
    destruct (decide (k = key)) as [->|Hne].
    + rewrite (bool_decide_eq_true_2 (key ∈ key :: rest))
        by apply list_elem_of_here.
      simpl. destruct (conflictb key u).
      * rewrite lookup_delete_eq. by destruct (bool_decide _ && true).
      * by rewrite andb_false_r.
    + assert (bool_decide (k ∈ key :: rest) = bool_decide (k ∈ rest)) as ->.
      { apply bool_decide_ext. rewrite elem_of_cons.
        split; [by intros [?|?] | by right]. }
      destruct (bool_decide (k ∈ rest) && conflictb k u); [done|].
      destruct (conflictb key u); [by rewrite lookup_delete_ne|done].
Qed.

Lemma elem_of_Object_keys s k : k ∈ Object_keys s ↔ is_Some (s !! k).
Proof.
  unfold Object_keys. rewrite list_elem_of_fmap. split.
  - intros ([k' v] & -> & H%elem_of_map_to_list). by eauto.
  - intros [v H]. exists (k, v). by rewrite elem_of_map_to_list.
Qed.

(** The order in which the snapshot lists the keys does not matter. *)
Lemma cleanLoop_Permutation keys keys' (update : value) s :
  keys ≡ₚ keys' → cleanLoop keys update s = cleanLoop keys' update s.
Proof.
  intros Hperm. revert s.
  induction Hperm as [|x l l' _ IH|x y l|l l' l'' _ IH1 _ IH2]; intros s.
  - done.
  - simpl. destruct (conflicts x update); simpl; [apply IH|done].
  - simpl. destruct (conflicts x update) as [[]|], (conflicts y update) as [[]|];
      simpl; try done. by rewrite delete_delete.
  - by rewrite IH1.
Qed.

(** Sharing.  When the group being cleaned is one of the update's own
    groups, a key is tested while it is still in the group, so the test sees
    what it would see in a copy taken before the loop. *)
Lemma in_group_shared key name g u s s0 :
  is_Some (s !! key) → is_Some (s0 !! key) →
  in_group key (VObj (<[ name := VObj s ]> u)) g
  = in_group key (VObj (<[ name := VObj s0 ]> u)) g.
Proof.
  intros [v Hs] [v0 Hs0]. unfold in_group. rewrite !get_obj. simpl.
  unfold prop. destruct (decide (name = g)) as [->|Hne].
  - rewrite !lookup_insert_eq. simpl. unfold js_in. by rewrite Hs, Hs0.
  - by rewrite !lookup_insert_ne.
Qed.

Lemma conflicts_shared key name u s s0 :
  is_Some (s !! key) → is_Some (s0 !! key) →
  conflicts key (VObj (<[ name := VObj s ]> u))
  = conflicts key (VObj (<[ name := VObj s0 ]> u)).
Proof.
  intros Hs Hs0. unfold conflicts.
  by rewrite !(in_group_shared key name _ u s s0 Hs Hs0).
Qed.

Lemma cleanLoop_shared_copy name keys u s s0 :
  NoDup keys →
  (∀ k, k ∈ keys → is_Some (s !! k) ∧ is_Some (s0 !! k)) →
  cleanLoop_shared name keys u s
  = cleanLoop keys (VObj (<[ name := VObj s0 ]> u)) s.
Proof.
  intros Hnd. revert s. induction Hnd as [|key rest Hnotin Hnd IH]; intros s Hin.
  - done.
  - simpl. destruct (Hin key (list_elem_of_here _ _)) as [Hs Hs0].
    rewrite (conflicts_shared key name u s s0 Hs Hs0).
    destruct (conflicts key (VObj (<[ name := VObj s0 ]> u))) as [c|]; [|done].
    simpl. apply IH. intros k Hk.
    destruct (Hin k (list_elem_of_further _ _ _ Hk)) as [Hk1 Hk2].
    split; [|done]. destruct c; [|done].
    rewrite lookup_delete_ne; [done|]. by intros ->.
Qed.

(** Passing one of the update's own groups gives what passing a copy of it
    gives. *)
Lemma cleanSetOnInsert_shared_copy name s u :
  cleanSetOnInsert_shared name s u
  = cleanSetOnInsert s (VObj (<[ name := VObj s ]> u)).
Proof.
  unfold cleanSetOnInsert_shared, cleanSetOnInsert.
  apply cleanLoop_shared_copy.
  - apply NoDup_fst_map_to_list.
  - intros k Hk%elem_of_Object_keys. done.
Qed.

(** [cleanSetOnInsert] on an update document with plain groups returns,
    and what it returns is the group without the keys whose test
    succeeds. *)
Lemma cleanSetOnInsert_plain s u :
  plain_groups u →
  ∃ r, cleanSetOnInsert s (VObj u) = Some r
       ∧ ∀ k, r !! k = if conflictb k u then None else s !! k.
Proof.
  intros Hp. unfold cleanSetOnInsert.
  destruct (cleanLoop_plain (Object_keys s) u s Hp) as (r & Hr & Hl).
  exists r. split; [done|]. intros k. rewrite Hl.
  destruct (conflictb k u); [|by rewrite andb_false_r].
  rewrite andb_true_r. case_bool_decide as Hk; [done|].
  rewrite elem_of_Object_keys in Hk. by apply eq_None_not_Some.
Qed.

(** The exact set of keys kept. *)
Lemma cleanSetOnInsert_kept s u :
  plain_groups u →
  ∃ r, cleanSetOnInsert s (VObj u) = Some r
       ∧ ∀ k v, r !! k = Some v
                ↔ s !! k = Some v ∧ ¬ in_conflict k u ∧ inherited k = false.
Proof.
  intros Hp. destruct (cleanSetOnInsert_plain s u Hp) as (r & Hr & Hl).
  exists r. split; [done|]. intros k v. rewrite Hl.
  pose proof (conflictb_true k u Hp) as Hc.
  destruct (conflictb k u).
  - split; [done|]. intros (_ & Hn & Hi).
    destruct (proj1 Hc eq_refl) as [?|Hi']; [done|congruence].
  - split; [|by intros [? _]]. intros Hs. split; [done|]. split.
    + intros Hin. discriminate (proj2 Hc (or_introl Hin)).
    + destruct (inherited k) eqn:Hi; [|done].
      discriminate (proj2 Hc (or_intror eq_refl)).
Qed.

End Clean.

(** C4.  For every set-on-insert group [s] and every update document [u]
    whose [$set], [$push], [$inc] and [$unset] groups are absent or objects,
    [cleanSetOnInsert s u] returns a group that shares no key with any of
    [u.$set], [u.$push], [u.$inc], [u.$unset]. *)
Theorem cleanSetOnInsert_no_shared_key (s u : gmap string value) :
  plain_groups u →
  ∃ r, cleanSetOnInsert s (VObj u) = Some r
       ∧ ∀ name o k,
           name ∈ conflict_groups → u !! name = Some (VObj o) →
           is_Some (r !! k) → o !! k = None.
Proof.
  intros Hp. destruct (cleanSetOnInsert_kept s u Hp) as (r & Hr & Hk).
  exists r. split; [done|]. intros name o k Hn Ho [v Hv].
  apply Hk in Hv as (_ & Hc & _).
  destruct (o !! k) as [w|] eqn:E; [|done].
  destruct Hc. exists name, o. by rewrite E.
Qed.

(** The defaults [{ createdAt, views }] against [{ $inc: { views: 1 } }]. *)
Lemma cleanSetOnInsert_no_shared_key_witness :
  ∃ r, cleanSetOnInsert
         (<[ "createdAt" := VDate 1 ]> {[ "views" := VNum 0 ]})
         (VObj {[ "$inc" := VObj {[ "views" := VNum 1 ]} ]})
       = Some r
       ∧ ∀ name o k,
           name ∈ conflict_groups →
           ({[ "$inc" := VObj {[ "views" := VNum 1 ]} ]} : gmap string value)
             !! name = Some (VObj o) →
           is_Some (r !! k) → o !! k = None.
Proof.
  apply cleanSetOnInsert_no_shared_key.
  intros name Hn. unfold conflict_groups in Hn.
  apply elem_of_cons in Hn as [->|Hn]; [left; vm_compute; reflexivity|].
  apply elem_of_cons in Hn as [->|Hn]; [left; vm_compute; reflexivity|].
  apply elem_of_cons in Hn as [->|Hn];
    [right; eexists; vm_compute; reflexivity|].
  apply elem_of_cons in Hn as [->|Hn]; [left; vm_compute; reflexivity|].
  by apply elem_of_nil in Hn.
Defined.

(** C10.  The claim on the failing input.  The group
    [{ constructor: 'acme', name: 'n' }] is cleaned against the update
    [{ $set: { age: 1 } }]: no group of the update has the key [constructor],
    and yet [cleanSetOnInsert] removes it, because [in] also finds the names
    an object inherits. *)
Theorem cleanSetOnInsert_drops_inherited_name :
  cleanSetOnInsert
    (<[ "constructor" := VStr "acme" ]> {[ "name" := VStr "n" ]})
    (VObj {[ "$set" := VObj {[ "age" := VNum 1 ]} ]})
  = Some {[ "name" := VStr "n" ]}
  ∧ ¬ in_conflict "constructor" {[ "$set" := VObj {[ "age" := VNum 1 ]} ]}.
Proof.
  split; [vm_compute; reflexivity|].
  intros (name & o & Hn & Ho & Hk). unfold conflict_groups in Hn.
  apply elem_of_cons in Hn as [->|Hn].
  { rewrite lookup_singleton_eq in Ho. injection Ho as <-.
    rewrite lookup_singleton_ne in Hk by done. by destruct Hk. }
  repeat (apply elem_of_cons in Hn as [->|Hn];
          [by rewrite lookup_singleton_ne in Ho|]).
  by apply elem_of_nil in Hn.
Qed.

(** ** [ProjectionType] *)

Section Projections.
Import Projection.
Implicit Types (fs : gmap string shape) (s : shape).

Lemma WithId_Struct fs :
  WithId (Struct fs)
  = Struct (<[ "_id" := default (Scalar "ObjectId") (fs !! "_id") ]> fs).
Proof. unfold WithId, InferIdType. simpl. by rewrite insert_delete_eq. Qed.

Lemma WithId_has_id s : is_Some (fields_of (WithId s) !! "_id").
Proof. unfold WithId. simpl. rewrite lookup_insert_eq. by eexists. Qed.

Lemma keyof_singleton path (flag : Z) :
  keyof {[ path := flag ]} = [segments path].
Proof. unfold keyof. by rewrite map_to_list_singleton. Qed.

Lemma tails_of_single f h : tails_of f [[h]] = if String.eqb h f then [[]] else [].
Proof. unfold tails_of. simpl. by destruct (String.eqb h f). Qed.

Lemma DeepPick_lookup fs paths k :
  fields_of (DeepPick (Struct fs) paths) !! k
  = fs !! k ≫= fun sf =>
      match tails_of k paths with
      | [] => None
      | tails =>
          if existsb (fun t => bool_decide (t = [])) tails then Some sf
          else Some (DeepPick sf tails)
      end.
Proof. exact (map_lookup_imap _ _ _). Qed.

Lemma DeepPick_Struct fs paths :
  DeepPick (Struct fs) paths = Struct (fields_of (DeepPick (Struct fs) paths)).
Proof. done. Qed.

(** Picking the single path [h] keeps the field [h], whole, and nothing
    else. *)
Lemma DeepPick_single fs h (A : shape) :
  DeepPick (Struct (<[ h := A ]> fs)) [[h]] = Struct {[ h := A ]}.
Proof.
  rewrite DeepPick_Struct. f_equal. apply map_eq. intros k.
  rewrite DeepPick_lookup, tails_of_single.
  destruct (String.eqb_spec h k) as [->|Hne].
  - by rewrite lookup_insert_eq, lookup_singleton_eq.
  - rewrite lookup_insert_ne, lookup_singleton_ne by done.
    by destruct (fs !! k).
Qed.

End Projections.

(** C8.  Resolving a projection against a record shape.  With no projection
    the derived shape is the full record shape with the identifier field
    present.  With a projection that has the single path [a], on a shape with
    the field [a] among its top-level fields, the derived shape has exactly
    the fields [_id] and [a].  In every case the derived shape has the
    identifier field. *)
Theorem projection_identity :
  (∀ fs : gmap string Projection.shape,
     Projection.ProjectionType (Projection.Struct fs) None
     = Projection.Struct
         (<[ "_id" := default (Projection.Scalar "ObjectId") (fs !! "_id") ]> fs))
  ∧ (∀ (fs : gmap string Projection.shape) (A : Projection.shape) (flag : Z),
       Projection.ProjectionType (Projection.Struct (<[ "a" := A ]> fs))
                                 (Some {[ "a" := flag ]})
       = Projection.Struct
           (<[ "_id" := Projection.Scalar "ObjectId" ]> {[ "a" := A ]}))
  ∧ (∀ (s : Projection.shape) (p : option (gmap string Z)),
       is_Some (Projection.fields_of (Projection.ProjectionType s p) !! "_id")).
Proof.
  split; [|split].
  - intros fs. apply WithId_Struct.
  - intros fs A flag. unfold Projection.ProjectionType.
    rewrite keyof_singleton.
    change (Projection.segments "a") with ["a"].
    rewrite DeepPick_single, WithId_Struct.
    by rewrite lookup_singleton_ne.
  - intros s [p|]; apply WithId_has_id.
Qed.

(** ** Further properties of [utils.ts] *)

Section More.
Implicit Types (op m u r d s : gmap string value) (tag k : string).

Lemma dispatch_none op :
  variant op = None →
  js_in "insertOne" op = false ∧ js_in "updateOne" op = false
  ∧ js_in "updateMany" op = false ∧ js_in "replaceOne" op = false.
Proof.
  unfold variant. rewrite !filter_cons, filter_nil.
  repeat case_decide; intros; simplify_eq/=;
    repeat match goal with
           | H : js_in _ _ ≠ true |- _ => apply not_true_is_false in H
           end; done.
Qed.

Lemma variant_tag op tag :
  variant op = Some tag →
  tag ∈ ["insertOne"; "updateOne"; "updateMany"; "replaceOne"].
Proof.
  unfold variant. intros H%head_Some_elem_of.
  by apply list_elem_of_filter in H as [_ H].
Qed.

(** What [attach] leaves under each name. *)
Lemma attach_lookup name g acc k :
  attach name g acc !! k
  = if decide (k = name ∧ g ≠ ∅) then Some (VObj g) else acc !! k.
Proof.
  destruct (decide (g = ∅)) as [->|Hg].
  - rewrite attach_empty. case_decide as H; [by destruct H|done].
  - rewrite attach_nonempty by done. destruct (decide (k = name)) as [->|Hk].
    + rewrite lookup_insert_eq. by rewrite decide_True.
    + rewrite lookup_insert_ne by done.
      rewrite decide_False; [done|]. by intros [? _].
Qed.

Lemma get_not_nullish (v : value) k :
  nullish v = false → get v k = Some (prop (own_props v) k).
Proof. unfold get. by intros ->. Qed.

Lemma get_nullish (v : value) k : nullish v = true → get v k = None.
Proof. unfold get. by intros ->. Qed.

End More.

(** X1.  An operation with none of the tags [insertOne], [updateOne],
    [updateMany], [replaceOne] (a [deleteOne], a [deleteMany]) is returned as
    it is, and the clock is not read. *)
Theorem bulk_untagged_unchanged (now : nat → Z) (n : nat)
    (op : gmap string value) :
  variant op = None →
  timestampBulkWriteOperation op now n = Some (op, n).
Proof.
  intros (H1 & H2 & H3 & H4)%dispatch_none.
  unfold timestampBulkWriteOperation. by rewrite H1, H2, H3, H4.
Qed.

(** A [deleteMany] operation. *)
Lemma bulk_untagged_unchanged_witness :
  timestampBulkWriteOperation
    {[ "deleteMany" := VObj {[ "filter" := VObj {[ "done" := VBool true ]} ]} ]}
    Z.of_nat 0
  = Some ({[ "deleteMany" :=
             VObj {[ "filter" := VObj {[ "done" := VBool true ]} ]} ]}, 0).
Proof.
  apply (bulk_untagged_unchanged Z.of_nat 0). vm_compute; reflexivity.
Defined.

(** X2.  [timestampUpdateFilter] on an operator document changes the field
    [$currentDate] only: every other field of the result is the caller's. *)
Theorem timestampUpdateFilter_frame (u : gmap string value) :
  ∃ r, timestampUpdateFilter (VObj u) = Some (VObj r)
       ∧ ∀ k, k ≠ "$currentDate" → r !! k = u !! k.
Proof.
  eexists. split; [apply timestampUpdateFilter_obj|].
  intros k Hk. by apply attach_lookup_ne.
Qed.

(** X3.  When neither [$set] nor [$unset] gives [updatedAt] a truthy value,
    the result of [timestampUpdateFilter] has a [$currentDate] group in which
    [updatedAt] is [true], whatever the caller's [$currentDate] held for it,
    and in which every other entry is the caller's. *)
Theorem timestampUpdateFilter_stamps (u : gmap string value) :
  targeted u "updatedAt" = false →
  ∃ r cd, timestampUpdateFilter (VObj u) = Some (VObj r)
          ∧ r !! "$currentDate" = Some (VObj cd)
          ∧ cd !! "updatedAt" = Some (VBool true)
          ∧ ∀ k, k ≠ "updatedAt" → cd !! k = group u "$currentDate" !! k.
Proof.
  intros Ht. do 2 eexists. split; [apply timestampUpdateFilter_obj|].
  unfold stamped_currentDate. rewrite Ht.
  rewrite attach_nonempty by apply insert_non_empty.
  split; [apply lookup_insert_eq|]. split; [apply lookup_insert_eq|].
  intros k Hk. by rewrite lookup_insert_ne.
Qed.

(** The caller asks for a timestamp-typed [updatedAt] and for [seen]. *)
Lemma timestampUpdateFilter_stamps_witness :
  ∃ r cd,
    timestampUpdateFilter
      (VObj {[ "$currentDate" :=
               VObj (<[ "updatedAt" := VObj {[ "$type" := VStr "timestamp" ]} ]>
                       {[ "seen" := VBool true ]}) ]})
    = Some (VObj r)
    ∧ r !! "$currentDate" = Some (VObj cd)
    ∧ cd !! "updatedAt" = Some (VBool true)
    ∧ ∀ k, k ≠ "updatedAt" →
           cd !! k
           = group {[ "$currentDate" :=
                      VObj (<[ "updatedAt" :=
                               VObj {[ "$type" := VStr "timestamp" ]} ]>
                              {[ "seen" := VBool true ]}) ]}
                   "$currentDate" !! k.
Proof.
  apply timestampUpdateFilter_stamps. vm_compute; reflexivity.
Defined.

(** X4.  [timestampUpdateFilter] throws exactly on [null] and [undefined]:
    on every other value (an operator document, an array, a primitive) it
    returns. *)
Theorem timestampUpdateFilter_throws_iff (v : value) :
  timestampUpdateFilter v = None ↔ nullish v = true.
Proof.
  unfold timestampUpdateFilter, currentDate_group, not_targeted.
  destruct (nullish v) eqn:E.
  - by rewrite !get_nullish.
  - rewrite !get_not_nullish by done. simpl.
    split; [|done].
    by destruct (truthy (get_opt (prop (own_props v) "$set") "updatedAt")).
Qed.

(** X5.  The update built by [timestampBulkWriteOperation] for an
    [updateOne] or [updateMany] operation is the result of
    [timestampUpdateFilter] on the caller's update, but for the field
    [$setOnInsert]. *)
Theorem bulk_update_extends_timestampUpdateFilter (now : nat → Z) (n : nat)
    (op : gmap string value) (tag : string) (m u : gmap string value) :
  update_variant op tag →
  op !! tag = Some (VObj m) →
  m !! "update" = Some (VObj u) →
  ∃ r m' u' n',
    timestampUpdateFilter (VObj u) = Some (VObj r)
    ∧ timestampBulkWriteOperation op now n = Some ({[ tag := VObj m' ]}, n')
    ∧ m' !! "update" = Some (VObj u')
    ∧ ∀ k, k ≠ "$setOnInsert" → u' !! k = r !! k.
Proof.
  intros Hv Hop Hu. do 4 eexists.
  split; [apply timestampUpdateFilter_obj|].
  rewrite (dispatch_update op tag Hv).
  split; [by eapply timestampUpdateModel_obj|].
  split; [apply lookup_insert_eq|].
  intros k Hk. unfold stamped_update. by rewrite attach_lookup_ne.
Qed.

(** The [updateOne] operation of the scenario. *)
Lemma bulk_update_extends_timestampUpdateFilter_witness :
  ∃ r m' u' n',
    timestampUpdateFilter (VObj {[ "$set" := VObj {[ "status" := VStr "closed" ]} ]})
    = Some (VObj r)
    ∧ timestampBulkWriteOperation
        {[ "updateOne" :=
           VObj (<[ "filter" := VObj {[ "status" := VStr "open" ]} ]>
                   {[ "update" :=
                      VObj {[ "$set" := VObj {[ "status" := VStr "closed" ]} ]} ]}) ]}
        Z.of_nat 0
      = Some ({[ "updateOne" := VObj m' ]}, n')
    ∧ m' !! "update" = Some (VObj u')
    ∧ ∀ k, k ≠ "$setOnInsert" → u' !! k = r !! k.
Proof.
  apply (bulk_update_extends_timestampUpdateFilter Z.of_nat 0 _ "updateOne"
           (<[ "filter" := VObj {[ "status" := VStr "open" ]} ]>
              {[ "update" :=
                 VObj {[ "$set" := VObj {[ "status" := VStr "closed" ]} ]} ]})).
  - split; [vm_compute; reflexivity | apply list_elem_of_here].
  - vm_compute; reflexivity.
  - vm_compute; reflexivity.
Defined.

Section MoreBulk.
Implicit Types (op m u r d : gmap string value) (tag k : string).
Variable now : nat → Z.

(** The [insertOne] branch, whatever the descriptor holds as [document]. *)
Lemma bulk_insertOne_any op m n :
  op !! "insertOne" = Some (VObj m) →
  timestampBulkWriteOperation op now n
  = Some ({[ "insertOne" :=
             VObj {[ "document" :=
                     VObj (timestamped (prop m "document") (VDate (now n))
                                       (VDate (now (S n)))) ]} ]},
          S (S n)).
Proof.
  intros Hop. unfold timestampBulkWriteOperation, js_in. rewrite Hop.
  unfold bind, new_Date, lift, ret, prop. by rewrite Hop.
Qed.

(** The [replaceOne] branch, whatever the descriptor holds as
    [replacement]. *)
Lemma bulk_replaceOne_any op m n :
  variant op = Some "replaceOne" →
  op !! "replaceOne" = Some (VObj m) →
  timestampBulkWriteOperation op now n
  = Some ({[ "replaceOne" :=
             VObj (<[ "replacement" :=
                      VObj (timestamped (prop m "replacement") (VDate (now n))
                                        (VDate (now (S n)))) ]> m) ]},
          S (S n)).
Proof.
  intros (H1 & H2 & H3 & H4)%dispatch_replaceOne Hop.
  unfold timestampBulkWriteOperation. rewrite H1, H2, H3, H4.
  unfold bind, new_Date, lift, ret, prop. rewrite Hop. simpl.
  by rewrite spread_obj_empty.
Qed.

Lemma timestamped_nullish (v c u' : value) :
  nullish v = true →
  timestamped v c u' = <[ "updatedAt" := u' ]> {[ "createdAt" := c ]}.
Proof.
  intros Hv. unfold timestamped, spread.
  assert (own_props v = ∅) as -> by (by destruct v).
  by rewrite (left_id_L ∅ (∪)).
Qed.

Lemma currentDate_group_nullish (v : value) :
  nullish v = true → currentDate_group v = None.
Proof. intros Hv. unfold currentDate_group. by rewrite get_nullish. Qed.

Lemma isArray_nullish (v : value) : nullish v = true → isArray v = false.
Proof. by destruct v. Qed.

End MoreBulk.

(** X6.  For an [updateOne] or [updateMany] operation on an operator document
    in which neither [$set] nor [$unset] gives [createdAt] a truthy value,
    the clock is read once and the update built has a [$setOnInsert] group
    whose [createdAt] is the time read, also when the caller's own
    [$setOnInsert] held a [createdAt]; every other entry of the group is the
    caller's. *)
Theorem bulk_update_stamps_createdAt (now : nat → Z) (n : nat)
    (op : gmap string value) (tag : string) (m u : gmap string value) :
  update_variant op tag →
  op !! tag = Some (VObj m) →
  m !! "update" = Some (VObj u) →
  targeted u "createdAt" = false →
  ∃ m' u' soi,
    timestampBulkWriteOperation op now n = Some ({[ tag := VObj m' ]}, S n)
    ∧ m' !! "update" = Some (VObj u')
    ∧ u' !! "$setOnInsert" = Some (VObj soi)
    ∧ soi !! "createdAt" = Some (VDate (now n))
    ∧ ∀ k, k ≠ "createdAt" → soi !! k = group u "$setOnInsert" !! k.
Proof.
  intros Hv Hop Hu Ht. do 3 eexists.
  rewrite (dispatch_update op tag Hv).
  rewrite (timestampUpdateModel_obj now tag op m u n Hop Hu).
  unfold readings. rewrite Ht. split; [reflexivity|].
  split; [apply lookup_insert_eq|].
  rewrite stamped_update_setOnInsert_attached.
  unfold stamped_setOnInsert. rewrite Ht.
  rewrite decide_False by apply insert_non_empty.
  split; [done|]. split; [apply lookup_insert_eq|].
  intros k Hk. by rewrite lookup_insert_ne.
Qed.

(** The caller's own [$setOnInsert] holds a [createdAt] and a [role]. *)
Lemma bulk_update_stamps_createdAt_witness :
  ∃ m' u' soi,
    timestampBulkWriteOperation
      {[ "updateMany" :=
         VObj {[ "update" :=
                 VObj {[ "$setOnInsert" :=
                         VObj (<[ "createdAt" := VDate 5 ]>
                                 {[ "role" := VStr "user" ]}) ]} ]} ]}
      Z.of_nat 7
    = Some ({[ "updateMany" := VObj m' ]}, 8)
    ∧ m' !! "update" = Some (VObj u')
    ∧ u' !! "$setOnInsert" = Some (VObj soi)
    ∧ soi !! "createdAt" = Some (VDate (Z.of_nat 7))
    ∧ ∀ k, k ≠ "createdAt" →
           soi !! k
           = group {[ "$setOnInsert" :=
                      VObj (<[ "createdAt" := VDate 5 ]>
                              {[ "role" := VStr "user" ]}) ]}
                   "$setOnInsert" !! k.
Proof.
  apply (bulk_update_stamps_createdAt Z.of_nat 7 _ "updateMany"
           {[ "update" :=
              VObj {[ "$setOnInsert" :=
                      VObj (<[ "createdAt" := VDate 5 ]>
                              {[ "role" := VStr "user" ]}) ]} ]}).
  - split; [vm_compute; reflexivity|].
    apply list_elem_of_further, list_elem_of_here.
  - vm_compute; reflexivity.
  - vm_compute; reflexivity.
  - vm_compute; reflexivity.
Defined.

(** X7.  For an [updateOne] or [updateMany] operation on an operator document
    whose [$set] or [$unset] group gives [createdAt] a truthy value, the
    clock is not read and the [$setOnInsert] group of the update built has
    exactly the caller's entries. *)
Theorem bulk_update_keeps_setOnInsert (now : nat → Z) (n : nat)
    (op : gmap string value) (tag : string) (m u : gmap string value) :
  update_variant op tag →
  op !! tag = Some (VObj m) →
  m !! "update" = Some (VObj u) →
  marks u "createdAt" →
  ∃ m' u',
    timestampBulkWriteOperation op now n = Some ({[ tag := VObj m' ]}, n)
    ∧ m' !! "update" = Some (VObj u')
    ∧ group u' "$setOnInsert" = group u "$setOnInsert".
Proof.
  intros Hv Hop Hu Ht%marks_targeted. do 2 eexists.
  rewrite (dispatch_update op tag Hv).
  rewrite (timestampUpdateModel_obj now tag op m u n Hop Hu).
  unfold readings. rewrite Ht. split; [reflexivity|].
  split; [apply lookup_insert_eq|].
  rewrite stamped_update_setOnInsert. unfold stamped_setOnInsert.
  by rewrite Ht.
Qed.

(** The caller sets [createdAt] itself. *)
Lemma bulk_update_keeps_setOnInsert_witness :
  ∃ m' u',
    timestampBulkWriteOperation
      {[ "updateOne" :=
         VObj {[ "update" :=
                 VObj {[ "$set" := VObj {[ "createdAt" := VDate 5 ]} ]} ]} ]}
      Z.of_nat 0
    = Some ({[ "updateOne" := VObj m' ]}, 0)
    ∧ m' !! "update" = Some (VObj u')
    ∧ group u' "$setOnInsert"
      = group {[ "$set" := VObj {[ "createdAt" := VDate 5 ]} ]} "$setOnInsert".
Proof.
  apply (bulk_update_keeps_setOnInsert Z.of_nat 0 _ "updateOne"
           {[ "update" :=
              VObj {[ "$set" := VObj {[ "createdAt" := VDate 5 ]} ]} ]}).
  - split; [vm_compute; reflexivity | apply list_elem_of_here].
  - vm_compute; reflexivity.
  - vm_compute; reflexivity.
  - exists "$set", {[ "createdAt" := VDate 5 ]}, (VDate 5).
    split; [apply list_elem_of_here|].
    split; [vm_compute; reflexivity|].
    split; [vm_compute; reflexivity | reflexivity].
Defined.

(** X8.  An [updateOne] or [updateMany] operation whose descriptor has no
    [update] (or holds [undefined] or [null] there) makes
    [timestampBulkWriteOperation] throw. *)
Theorem bulk_update_without_update_throws (now : nat → Z) (n : nat)
    (op : gmap string value) (tag : string) (m : gmap string value) :
  update_variant op tag →
  op !! tag = Some (VObj m) →
  nullish (prop m "update") = true →
  timestampBulkWriteOperation op now n = None.
Proof.
  intros Hv Hop Hu. rewrite (dispatch_update op tag Hv).
  unfold timestampUpdateModel, bind, lift, prop at 1. rewrite Hop. simpl.
  rewrite (isArray_nullish _ Hu).
  by rewrite (currentDate_group_nullish _ Hu).
Qed.

(** An [updateOne] with a filter and nothing else. *)
Lemma bulk_update_without_update_throws_witness :
  timestampBulkWriteOperation
    {[ "updateOne" := VObj {[ "filter" := VObj ∅ ]} ]} Z.of_nat 0
  = None.
Proof.
  apply (bulk_update_without_update_throws Z.of_nat 0 _ "updateOne"
           {[ "filter" := VObj ∅ ]}).
  - split; [vm_compute; reflexivity | apply list_elem_of_here].
  - vm_compute; reflexivity.
  - vm_compute; reflexivity.
Defined.

Section Renormalise.
Implicit Types (op m u r d : gmap string value) (tag k : string).

Lemma variant_singleton tag (x : value) :
  tag ∈ ["insertOne"; "updateOne"; "updateMany"; "replaceOne"] →
  variant {[ tag := x ]} = Some tag.
Proof.
  intros Ht.
  repeat (apply elem_of_cons in Ht as [->|Ht]; [vm_compute; reflexivity|]).
  by apply elem_of_nil in Ht.
Qed.

(** A document that has both fields absorbs the injected ones. *)
Lemma timestamped_absorb d (c u' : value) :
  is_Some (d !! "createdAt") → is_Some (d !! "updatedAt") →
  timestamped (VObj d) c u' = d.
Proof.
  intros [vc Hc] [vu Hu]. apply map_eq. intros k.
  rewrite timestamped_lookup. destruct (d !! k) eqn:E; [done|].
  repeat case_decide; subst; congruence.
Qed.

Lemma timestamped_has_both d (c u' : value) :
  is_Some (timestamped (VObj d) c u' !! "createdAt")
  ∧ is_Some (timestamped (VObj d) c u' !! "updatedAt").
Proof.
  rewrite !timestamped_lookup.
  split; [destruct (d !! "createdAt") | destruct (d !! "updatedAt")];
    by eexists.
Qed.

Lemma targeted_stamped_update t u field :
  targeted (stamped_update t u) field = targeted u field.
Proof. unfold stamped_update. by rewrite !targeted_attach. Qed.

Lemma stamped_currentDate_stamped_update t u :
  stamped_currentDate (stamped_update t u) = stamped_currentDate u.
Proof.
  assert (Hg : group (stamped_update t u) "$currentDate"
               = stamped_currentDate u).
  { unfold stamped_update, group, prop. rewrite attach_lookup_ne by done.
    apply (group_attach "$currentDate"), stamped_currentDate_empty. }
  unfold stamped_currentDate at 1.
  rewrite targeted_stamped_update, Hg. unfold stamped_currentDate.
  destruct (targeted u "updatedAt"); [done|]. apply insert_insert_eq.
Qed.

Lemma stamped_setOnInsert_stamped_update t1 t2 u :
  stamped_setOnInsert t2 (stamped_update t1 u) = stamped_setOnInsert t2 u.
Proof.
  unfold stamped_setOnInsert at 1.
  rewrite targeted_stamped_update, stamped_update_setOnInsert.
  unfold stamped_setOnInsert. destruct (targeted u "createdAt"); [done|].
  apply insert_insert_eq.
Qed.

(** The later normalisation of an update document wins. *)
Lemma stamped_update_twice t1 t2 u :
  stamped_update t2 (stamped_update t1 u) = stamped_update t2 u.
Proof.
  unfold stamped_update at 1.
  rewrite stamped_setOnInsert_stamped_update, stamped_currentDate_stamped_update.
  unfold stamped_update.
  assert (Hso : stamped_setOnInsert t2 u = ∅ → stamped_setOnInsert t1 u = ∅).
  { unfold stamped_setOnInsert. destruct (targeted u "createdAt"); [done|].
    intros H. by apply insert_non_empty in H. }
  apply map_eq. intros k. rewrite !attach_lookup.
  destruct (decide (k = "$setOnInsert")) as [->|Hk1].
  - destruct (decide (stamped_setOnInsert t2 u = ∅)) as [H2|H2].
    + rewrite (Hso H2), H2. repeat case_decide; try done; naive_solver.
    + rewrite !decide_True; done.
  - rewrite !(decide_False (P := k = "$setOnInsert" ∧ _)) by (by intros [? _]).
    by case_decide.
Qed.

End Renormalise.

(** X9.  An [insertOne] whose descriptor has no [document], and a
    [replaceOne] whose descriptor has no [replacement] (or hold [undefined] or
    [null] there), do not throw: the document, respectively the replacement,
    of the result holds the two timestamps and nothing else. *)
Theorem insert_replace_without_document (now : nat → Z) (n : nat)
    (op : gmap string value) (tag field : string) (m : gmap string value) :
  (tag, field) ∈ [("insertOne", "document"); ("replaceOne", "replacement")] →
  variant op = Some tag →
  op !! tag = Some (VObj m) →
  nullish (prop m field) = true →
  ∃ m',
    timestampBulkWriteOperation op now n = Some ({[ tag := VObj m' ]}, S (S n))
    ∧ m' !! field
      = Some (VObj (<[ "updatedAt" := VDate (now (S n)) ]>
                      {[ "createdAt" := VDate (now n) ]})).
Proof.
  intros Ht Hv Hop Hf.
  apply elem_of_cons in Ht as [[= -> ->]|Ht];
    [|apply elem_of_cons in Ht as [[= -> ->]|Ht]; [|by apply elem_of_nil in Ht]].
  - eexists. rewrite (bulk_insertOne_any now op m n Hop).
    split; [reflexivity|]. rewrite lookup_singleton_eq.
    by rewrite timestamped_nullish.
  - eexists. rewrite (bulk_replaceOne_any now op m n Hv Hop).
    split; [reflexivity|]. rewrite lookup_insert_eq.
    by rewrite timestamped_nullish.
Qed.

(** A [replaceOne] with a filter and no replacement. *)
Lemma insert_replace_without_document_witness :
  ∃ m',
    timestampBulkWriteOperation
      {[ "replaceOne" := VObj {[ "filter" := VObj ∅ ]} ]} Z.of_nat 3
    = Some ({[ "replaceOne" := VObj m' ]}, 5)
    ∧ m' !! "replacement"
      = Some (VObj (<[ "updatedAt" := VDate (Z.of_nat 4) ]>
                      {[ "createdAt" := VDate (Z.of_nat 3) ]})).
Proof.
  apply (insert_replace_without_document Z.of_nat 3 _ "replaceOne"
           "replacement" {[ "filter" := VObj ∅ ]}).
  - apply list_elem_of_further, list_elem_of_here.
  - vm_compute; reflexivity.
  - vm_compute; reflexivity.
  - vm_compute; reflexivity.
Defined.

(** X10.  An operation whose tag holds [undefined] or [null] instead of a
    descriptor makes [timestampBulkWriteOperation] throw, for each of the four
    tags it handles. *)
Theorem bulk_nullish_descriptor_throws (now : nat → Z) (n : nat)
    (op : gmap string value) (tag : string) :
  variant op = Some tag →
  nullish (prop op tag) = true →
  timestampBulkWriteOperation op now n = None.
Proof.
  intros Hv Hn. pose proof (variant_tag op tag Hv) as Ht.
  apply elem_of_cons in Ht as [->|Ht].
  { apply dispatch_insertOne in Hv. unfold timestampBulkWriteOperation.
    rewrite Hv. unfold bind, new_Date, lift. by rewrite get_nullish. }
  apply elem_of_cons in Ht as [->|Ht].
  { rewrite (dispatch_update op "updateOne");
      [|split; [done | apply list_elem_of_here]].
    unfold timestampUpdateModel, bind, lift. by rewrite get_nullish. }
  apply elem_of_cons in Ht as [->|Ht].
  { rewrite (dispatch_update op "updateMany");
      [|split; [done | apply list_elem_of_further, list_elem_of_here]].
    unfold timestampUpdateModel, bind, lift. by rewrite get_nullish. }
  apply elem_of_cons in Ht as [->|Ht]; [|by apply elem_of_nil in Ht].
  apply dispatch_replaceOne in Hv as (H1 & H2 & H3 & H4).
  unfold timestampBulkWriteOperation. rewrite H1, H2, H3, H4.
  unfold bind, new_Date, lift. by rewrite get_nullish.
Qed.

(** [{ insertOne: null }]. *)
Lemma bulk_nullish_descriptor_throws_witness :
  timestampBulkWriteOperation {[ "insertOne" := VNull ]} Z.of_nat 0 = None.
Proof.
  apply (bulk_nullish_descriptor_throws Z.of_nat 0 _ "insertOne").
  - vm_compute; reflexivity.
  - vm_compute; reflexivity.
Defined.

(** X11.  As soon as an operation has the key [insertOne], holding a
    descriptor, the result is an object with the one key [insertOne] whose
    value has the one key [document]: the other keys of the operation (also an
    [updateOne] beside it) and the other fields of the descriptor are left
    behind, and the clock is read twice. *)
Theorem bulk_insertOne_shape (now : nat → Z) (n : nat)
    (op m : gmap string value) :
  op !! "insertOne" = Some (VObj m) →
  ∃ d', timestampBulkWriteOperation op now n
        = Some ({[ "insertOne" := VObj {[ "document" := VObj d' ]} ]},
                S (S n)).
Proof. intros Hop. eexists. by apply bulk_insertOne_any. Qed.

(** An operation with two tags and a descriptor with an extra field. *)
Lemma bulk_insertOne_shape_witness :
  ∃ d', timestampBulkWriteOperation
          (<[ "insertOne" :=
              VObj (<[ "document" := VObj {[ "a" := VNum 1 ]} ]>
                      {[ "comment" := VStr "x" ]}) ]>
             {[ "updateOne" := VObj ∅ ]})
          Z.of_nat 0
        = Some ({[ "insertOne" := VObj {[ "document" := VObj d' ]} ]}, 2).
Proof.
  apply (bulk_insertOne_shape Z.of_nat 0 _
           (<[ "document" := VObj {[ "a" := VNum 1 ]} ]>
              {[ "comment" := VStr "x" ]})).
  vm_compute; reflexivity.
Defined.

(** X12.  For a [replaceOne] operation the result keeps every field of the
    descriptor other than [replacement] (the filter, the options). *)
Theorem bulk_replaceOne_frame (now : nat → Z) (n : nat)
    (op m : gmap string value) :
  variant op = Some "replaceOne" →
  op !! "replaceOne" = Some (VObj m) →
  ∃ m', timestampBulkWriteOperation op now n
        = Some ({[ "replaceOne" := VObj m' ]}, S (S n))
        ∧ ∀ k, k ≠ "replacement" → m' !! k = m !! k.
Proof.
  intros Hv Hop. eexists. split; [by apply bulk_replaceOne_any|].
  intros k Hk. by rewrite lookup_insert_ne.
Qed.

(** A [replaceOne] with a filter and [upsert]. *)
Lemma bulk_replaceOne_frame_witness :
  ∃ m', timestampBulkWriteOperation
          {[ "replaceOne" :=
             VObj (<[ "filter" := VObj {[ "a" := VNum 1 ]} ]>
                     (<[ "upsert" := VBool true ]>
                        {[ "replacement" := VObj {[ "a" := VNum 2 ]} ]})) ]}
          Z.of_nat 0
        = Some ({[ "replaceOne" := VObj m' ]}, 2)
        ∧ ∀ k, k ≠ "replacement" →
               m' !! k
               = (<[ "filter" := VObj {[ "a" := VNum 1 ]} ]>
                    (<[ "upsert" := VBool true ]>
                       {[ "replacement" := VObj {[ "a" := VNum 2 ]} ]})
                  : gmap string value) !! k.
Proof.
  apply (bulk_replaceOne_frame Z.of_nat 0).
  - vm_compute; reflexivity.
  - vm_compute; reflexivity.
Defined.

(** X13.  Normalising an [insertOne] or a [replaceOne] operation is
    idempotent: the operation returned is returned unchanged by every later
    normalisation, whatever the clock shows then; the timestamps of the first
    normalisation stay. *)
Theorem insert_replace_renormalised (now : nat → Z) (n : nat)
    (op : gmap string value) (tag field : string) (m d : gmap string value) :
  (tag, field) ∈ [("insertOne", "document"); ("replaceOne", "replacement")] →
  variant op = Some tag →
  op !! tag = Some (VObj m) →
  m !! field = Some (VObj d) →
  ∃ r, timestampBulkWriteOperation op now n = Some (r, S (S n))
       ∧ ∀ (now' : nat → Z) (n' : nat),
           timestampBulkWriteOperation r now' n' = Some (r, S (S n')).
Proof.
  intros Ht Hv Hop Hm.
  set (d' := timestamped (VObj d) (VDate (now n)) (VDate (now (S n)))).
  destruct (timestamped_has_both d (VDate (now n)) (VDate (now (S n))))
    as [Hc Hu]. fold d' in Hc, Hu.
  apply elem_of_cons in Ht as [[= -> ->]|Ht];
    [|apply elem_of_cons in Ht as [[= -> ->]|Ht]; [|by apply elem_of_nil in Ht]].
  - exists {[ "insertOne" := VObj {[ "document" := VObj d' ]} ]}.
    split; [by eapply bulk_insertOne|]. intros now' n'.
    rewrite (bulk_insertOne_any now' _ {[ "document" := VObj d' ]} n')
      by apply lookup_singleton_eq.
    unfold prop. rewrite lookup_singleton_eq. simpl.
    by rewrite timestamped_absorb.
  - exists {[ "replaceOne" := VObj (<[ "replacement" := VObj d' ]> m) ]}.
    split; [by eapply bulk_replaceOne|]. intros now' n'.
    rewrite (bulk_replaceOne_any now' _ (<[ "replacement" := VObj d' ]> m) n').
    + unfold prop. rewrite lookup_insert_eq. simpl.
      by rewrite timestamped_absorb, insert_insert_eq.
    + apply variant_singleton. in_groups.
    + apply lookup_singleton_eq.
Qed.

(** An [insertOne] whose document has no timestamp. *)
Lemma insert_replace_renormalised_witness :
  ∃ r, timestampBulkWriteOperation
         {[ "insertOne" := VObj {[ "document" := VObj {[ "a" := VNum 1 ]} ]} ]}
         Z.of_nat 0
       = Some (r, 2)
       ∧ ∀ (now' : nat → Z) (n' : nat),
           timestampBulkWriteOperation r now' n' = Some (r, S (S n')).
Proof.
  apply (insert_replace_renormalised Z.of_nat 0 _ "insertOne" "document"
           {[ "document" := VObj {[ "a" := VNum 1 ]} ]} {[ "a" := VNum 1 ]}).
  - apply list_elem_of_here.
  - vm_compute; reflexivity.
  - vm_compute; reflexivity.
  - vm_compute; reflexivity.
Defined.

(** X14.  For an [updateOne] or [updateMany] operation on an operator
    document the later normalisation wins: normalising the operation returned
    gives, at any time, what normalising the original operation gives at that
    time. *)
Theorem bulk_update_renormalised (now : nat → Z) (n : nat)
    (op : gmap string value) (tag : string) (m u : gmap string value) :
  update_variant op tag →
  op !! tag = Some (VObj m) →
  m !! "update" = Some (VObj u) →
  ∃ r n1, timestampBulkWriteOperation op now n = Some (r, n1)
          ∧ ∀ (now' : nat → Z) (n' : nat),
              timestampBulkWriteOperation r now' n'
              = timestampBulkWriteOperation op now' n'.
Proof.
  intros Hv Hop Hu. do 2 eexists.
  rewrite (dispatch_update op tag Hv).
  split; [by eapply timestampUpdateModel_obj|]. intros now' n'.
  rewrite (timestampUpdateModel_obj now' tag op m u n' Hop Hu).
  rewrite (dispatch_update _ tag).
  - rewrite (timestampUpdateModel_obj now' tag _
               (<[ "update" := VObj (stamped_update (now n) u) ]> m)
               (stamped_update (now n) u) n')
      by (apply lookup_singleton_eq || apply lookup_insert_eq).
    rewrite stamped_update_twice, insert_insert_eq.
    unfold readings. by rewrite targeted_stamped_update.
  - destruct Hv as [Hv Ht]. split; [|done].
    apply variant_singleton.
    apply elem_of_cons in Ht as [->|Ht]; [in_groups|].
    apply elem_of_cons in Ht as [->|Ht]; [in_groups|].
    by apply elem_of_nil in Ht.
Qed.

(** The [updateOne] operation of the scenario. *)
Lemma bulk_update_renormalised_witness :
  ∃ r n1,
    timestampBulkWriteOperation
      {[ "updateOne" :=
         VObj (<[ "filter" := VObj {[ "status" := VStr "open" ]} ]>
                 {[ "update" :=
                    VObj {[ "$set" := VObj {[ "status" := VStr "closed" ]} ]} ]}) ]}
      Z.of_nat 0
    = Some (r, n1)
    ∧ ∀ (now' : nat → Z) (n' : nat),
        timestampBulkWriteOperation r now' n'
        = timestampBulkWriteOperation
            {[ "updateOne" :=
               VObj (<[ "filter" := VObj {[ "status" := VStr "open" ]} ]>
                       {[ "update" :=
                          VObj {[ "$set" :=
                                  VObj {[ "status" := VStr "closed" ]} ]} ]}) ]}
            now' n'.
Proof.
  apply (bulk_update_renormalised Z.of_nat 0 _ "updateOne"
           (<[ "filter" := VObj {[ "status" := VStr "open" ]} ]>
              {[ "update" :=
                 VObj {[ "$set" := VObj {[ "status" := VStr "closed" ]} ]} ]})
           {[ "$set" := VObj {[ "status" := VStr "closed" ]} ]}).
  - split; [vm_compute; reflexivity | apply list_elem_of_here].
  - vm_compute; reflexivity.
  - vm_compute; reflexivity.
Defined.

Section MoreClean.
Implicit Types (s u r : gmap string value) (key k : string).

(** The test of the loop reads the four groups and nothing else. *)
Lemma conflicts_ext key u1 u2 :
  (∀ name, name ∈ conflict_groups → u1 !! name = u2 !! name) →
  conflicts key (VObj u1) = conflicts key (VObj u2).
Proof.
  intros H. unfold conflicts, in_group. rewrite !get_obj. unfold prop.
  by rewrite (H "$set"), (H "$push"), (H "$inc"), (H "$unset") by in_groups.
Qed.

Lemma cleanLoop_ext keys u1 u2 s :
  (∀ name, name ∈ conflict_groups → u1 !! name = u2 !! name) →
  cleanLoop keys (VObj u1) s = cleanLoop keys (VObj u2) s.
Proof.
  intros H. revert s. induction keys as [|key rest IH]; intros s; [done|].
  simpl. rewrite (conflicts_ext key u1 u2 H).
  destruct (conflicts key (VObj u2)); simpl; [apply IH|done].
Qed.

Lemma conflicts_nullish key (update : value) :
  nullish update = true → conflicts key update = None.
Proof.
  intros H. unfold conflicts, in_group.
  by rewrite (get_nullish update "$set" H).
Qed.

End MoreClean.

(** X15.  What [cleanSetOnInsert] keeps, exactly.  On an update document
    whose [$set], [$push], [$inc] and [$unset] groups are absent or objects it
    returns, and a key is in the result, with the value it had, exactly when
    it was in the group, is a key of none of the four groups, and is not one
    of the names every object inherits ([constructor], [toString], ...). *)
Theorem cleanSetOnInsert_exact (s u : gmap string value) :
  plain_groups u →
  ∃ r, cleanSetOnInsert s (VObj u) = Some r
       ∧ ∀ k v, r !! k = Some v
                ↔ s !! k = Some v ∧ ¬ in_conflict k u ∧ inherited k = false.
Proof. apply cleanSetOnInsert_kept. Qed.

(** Three defaults against [{ $set: { name: 'x' } }]. *)
Lemma cleanSetOnInsert_exact_witness :
  ∃ r, cleanSetOnInsert
         (<[ "name" := VStr "n" ]>
            (<[ "valueOf" := VNum 1 ]> {[ "age" := VNum 0 ]}))
         (VObj {[ "$set" := VObj {[ "name" := VStr "x" ]} ]})
       = Some r
       ∧ ∀ k v, r !! k = Some v
                ↔ (<[ "name" := VStr "n" ]>
                     (<[ "valueOf" := VNum 1 ]> {[ "age" := VNum 0 ]})
                   : gmap string value) !! k = Some v
                  ∧ ¬ in_conflict k {[ "$set" := VObj {[ "name" := VStr "x" ]} ]}
                  ∧ inherited k = false.
Proof.
  apply cleanSetOnInsert_exact.
  intros name Hn. unfold conflict_groups in Hn.
  apply elem_of_cons in Hn as [->|Hn];
    [right; eexists; vm_compute; reflexivity|].
  apply elem_of_cons in Hn as [->|Hn]; [left; vm_compute; reflexivity|].
  apply elem_of_cons in Hn as [->|Hn]; [left; vm_compute; reflexivity|].
  apply elem_of_cons in Hn as [->|Hn]; [left; vm_compute; reflexivity|].
  by apply elem_of_nil in Hn.
Defined.

(** X16.  [cleanSetOnInsert] is idempotent: cleaning the cleaned group
    against the same update document removes nothing more. *)
Theorem cleanSetOnInsert_idempotent (s u : gmap string value) :
  plain_groups u →
  ∃ r, cleanSetOnInsert s (VObj u) = Some r
       ∧ cleanSetOnInsert r (VObj u) = Some r.
Proof.
  intros Hp. destruct (cleanSetOnInsert_plain s u Hp) as (r & Hr & Hl).
  exists r. split; [done|].
  destruct (cleanSetOnInsert_plain r u Hp) as (r' & Hr' & Hl').
  rewrite Hr'. f_equal. apply map_eq. intros k. rewrite Hl', Hl.
  by destruct (conflictb k u).
Qed.

(** Two defaults against [{ $inc: { views: 1 } }]. *)
Lemma cleanSetOnInsert_idempotent_witness :
  ∃ r, cleanSetOnInsert
         (<[ "createdAt" := VDate 1 ]> {[ "views" := VNum 0 ]})
         (VObj {[ "$inc" := VObj {[ "views" := VNum 1 ]} ]})
       = Some r
       ∧ cleanSetOnInsert r (VObj {[ "$inc" := VObj {[ "views" := VNum 1 ]} ]})
         = Some r.
Proof.
  apply cleanSetOnInsert_idempotent.
  intros name Hn. unfold conflict_groups in Hn.
  apply elem_of_cons in Hn as [->|Hn]; [left; vm_compute; reflexivity|].
  apply elem_of_cons in Hn as [->|Hn]; [left; vm_compute; reflexivity|].
  apply elem_of_cons in Hn as [->|Hn];
    [right; eexists; vm_compute; reflexivity|].
  apply elem_of_cons in Hn as [->|Hn]; [left; vm_compute; reflexivity|].
  by apply elem_of_nil in Hn.
Defined.

(** X17.  The outcome of [cleanSetOnInsert], a group or a throw, does not
    depend on the order in which [Object.keys] lists the keys: the loop run
    over any reordering of the keys gives the same. *)
Theorem cleanSetOnInsert_any_key_order (keys : list string)
    (s : gmap string value) (update : value) :
  keys ≡ₚ Object_keys s →
  cleanLoop keys update s = cleanSetOnInsert s update.
Proof. intros H. by apply cleanLoop_Permutation. Qed.

(** The keys of a three-key group, listed backwards. *)
Lemma cleanSetOnInsert_any_key_order_witness :
  cleanLoop
    (reverse (Object_keys (<[ "a" := VNum 1 ]>
                             (<[ "b" := VNum 2 ]> {[ "c" := VNum 3 ]}))))
    (VObj {[ "$set" := VObj {[ "b" := VNum 0 ]} ]})
    (<[ "a" := VNum 1 ]> (<[ "b" := VNum 2 ]> {[ "c" := VNum 3 ]}))
  = cleanSetOnInsert
      (<[ "a" := VNum 1 ]> (<[ "b" := VNum 2 ]> {[ "c" := VNum 3 ]}))
      (VObj {[ "$set" := VObj {[ "b" := VNum 0 ]} ]}).
Proof. apply cleanSetOnInsert_any_key_order, reverse_Permutation. Defined.

(** X18.  Sharing is harmless.  When the group passed to [cleanSetOnInsert]
    is the very object the update document holds under some name, so that
    every deletion shows in the update document at once, the result is the
    one obtained from a copy of the group. *)
Theorem cleanSetOnInsert_shared_as_copy (name : string)
    (s u : gmap string value) :
  cleanSetOnInsert_shared name s u
  = cleanSetOnInsert s (VObj (<[ name := VObj s ]> u)).
Proof. apply cleanSetOnInsert_shared_copy. Qed.

(** X19.  With [undefined] or [null] as update, [cleanSetOnInsert] returns
    the empty group when the group is empty (the update is never read) and
    throws as soon as the group has a key. *)
Theorem cleanSetOnInsert_nullish_update (s : gmap string value)
    (update : value) :
  nullish update = true →
  cleanSetOnInsert s update = if decide (s = ∅) then Some ∅ else None.
Proof.
  intros Hn. unfold cleanSetOnInsert, Object_keys. case_decide as Hs.
  - subst s. by rewrite map_to_list_empty.
  - destruct (map_to_list s) as [|[k v] l] eqn:E.
    + by apply map_to_list_empty_iff in E.
    + simpl. by rewrite conflicts_nullish.
Qed.

(** A one-key group and [undefined]. *)
Lemma cleanSetOnInsert_nullish_update_witness :
  cleanSetOnInsert {[ "a" := VNum 1 ]} VUndefined
  = if decide (({[ "a" := VNum 1 ]} : gmap string value) = ∅) then Some ∅
    else None.
Proof. apply cleanSetOnInsert_nullish_update. reflexivity. Defined.

(** X20.  Normalising the update first does not change what
    [cleanSetOnInsert] does: cleaning a group against the result of
    [timestampUpdateFilter] gives what cleaning it against the caller's
    update document gives. *)
Theorem cleanSetOnInsert_after_timestampUpdateFilter (s u : gmap string value) :
  ∃ r, timestampUpdateFilter (VObj u) = Some (VObj r)
       ∧ cleanSetOnInsert s (VObj r) = cleanSetOnInsert s (VObj u).
Proof.
  eexists. split; [apply timestampUpdateFilter_obj|].
  apply cleanLoop_ext. intros name Hn. apply attach_lookup_ne.
  intros ->. unfold conflict_groups in Hn.
  repeat (apply elem_of_cons in Hn as [Hn|Hn]; [discriminate|]).
  by apply elem_of_nil in Hn.
Qed.

(** X21.  When the clock does not run backwards, the two timestamps
    [timestampBulkWriteOperation] injects into an [insertOne] document or a
    [replaceOne] replacement that has neither satisfy
    [createdAt <= updatedAt]; they come from two readings of the clock, the
    one for [createdAt] first. *)
Theorem insert_replace_createdAt_le_updatedAt (now : nat → Z) (n : nat)
    (op : gmap string value) (tag field : string) (m d : gmap string value) :
  (tag, field) ∈ [("insertOne", "document"); ("replaceOne", "replacement")] →
  variant op = Some tag →
  op !! tag = Some (VObj m) →
  m !! field = Some (VObj d) →
  d !! "createdAt" = None →
  d !! "updatedAt" = None →
  (∀ i j : nat, (i ≤ j)%nat → (now i ≤ now j)%Z) →
  ∃ m' d' c u,
    timestampBulkWriteOperation op now n = Some ({[ tag := VObj m' ]}, S (S n))
    ∧ m' !! field = Some (VObj d')
    ∧ d' !! "createdAt" = Some (VDate c)
    ∧ d' !! "updatedAt" = Some (VDate u)
    ∧ (c ≤ u)%Z.
Proof.
  intros Ht Hv Hop Hm Hc Hu Hmono.
  assert (Hd : timestamped (VObj d) (VDate (now n)) (VDate (now (S n)))
                 !! "createdAt" = Some (VDate (now n))
               ∧ timestamped (VObj d) (VDate (now n)) (VDate (now (S n)))
                   !! "updatedAt" = Some (VDate (now (S n)))).
  { rewrite !timestamped_lookup, Hc, Hu. split; done. }
  destruct Hd as [Hd1 Hd2].
  apply elem_of_cons in Ht as [[= -> ->]|Ht];
    [|apply elem_of_cons in Ht as [[= -> ->]|Ht]; [|by apply elem_of_nil in Ht]].
  - do 4 eexists. split; [by eapply bulk_insertOne|].
    split; [apply lookup_singleton_eq|].
    split; [exact Hd1|]. split; [exact Hd2|]. apply Hmono. lia.
  - do 4 eexists. split; [by eapply bulk_replaceOne|].
    split; [apply lookup_insert_eq|].
    split; [exact Hd1|]. split; [exact Hd2|]. apply Hmono. lia.
Qed.

(** An [insertOne] under the clock that shows the number of the reading. *)
Lemma insert_replace_createdAt_le_updatedAt_witness :
  ∃ m' d' c u,
    timestampBulkWriteOperation
      {[ "insertOne" := VObj {[ "document" := VObj {[ "a" := VNum 1 ]} ]} ]}
      Z.of_nat 0
    = Some ({[ "insertOne" := VObj m' ]}, 2)
    ∧ m' !! "document" = Some (VObj d')
    ∧ d' !! "createdAt" = Some (VDate c)
    ∧ d' !! "updatedAt" = Some (VDate u)
    ∧ (c ≤ u)%Z.
Proof.
  apply (insert_replace_createdAt_le_updatedAt Z.of_nat 0 _ "insertOne"
           "document" {[ "document" := VObj {[ "a" := VNum 1 ]} ]}
           {[ "a" := VNum 1 ]}).
  - apply list_elem_of_here.
  - vm_compute; reflexivity.
  - vm_compute; reflexivity.
  - vm_compute; reflexivity.
  - vm_compute; reflexivity.
  - vm_compute; reflexivity.
  - intros i j Hij. lia.
Defined.

(** X22.  [ProjectionType] looks at the paths of a projection and never at
    the numbers they are mapped to: changing the numbers, [1] into [0]
    included, leaves the derived shape as it is. *)
Theorem ProjectionType_ignores_flags (s : Projection.shape)
    (p : gmap string Z) (f : Z → Z) :
  Projection.ProjectionType s (Some (f <$> p))
  = Projection.ProjectionType s (Some p).
Proof.
  unfold Projection.ProjectionType, Projection.keyof.
  rewrite map_to_list_fmap.
  assert ((prod_map id f <$> map_to_list p).*1 = (map_to_list p).*1) as ->;
    [|done].
  induction (map_to_list p) as [|[k v] l IH]; [done|].
  rewrite !fmap_cons. simpl. by f_equal.
Qed.

(** X23.  [getIds] returns exactly when the [ObjectId] constructor accepts
    every member, and then with one id per member, in the order of the
    members: the id at each position is the one built from the member at that
    position.  When the constructor throws on some member, [getIds] throws
    and no id is returned. *)
Theorem getIds_all_or_nothing {Id ObjectId : Type}
    (new_ObjectId : Id → option ObjectId) (ids : list Id) :
  (getIds new_ObjectId ids = None ↔ ∃ x, x ∈ ids ∧ new_ObjectId x = None)
  ∧ ∀ out, getIds new_ObjectId ids = Some out →
           length out = length ids
           ∧ ∀ i x, ids !! i = Some x → out !! i = new_ObjectId x.
Proof.
  unfold getIds. split.
  - rewrite mapM_None, Exists_exists. done.
  - intros out H%mapM_Some. split; [symmetry; by eapply Forall2_length|].
    intros i x Hi.
    destruct (Forall2_lookup_l _ _ _ _ _ H Hi) as (y & Hy & Hxy).
    by rewrite Hy, Hxy.
Qed.

Section Readings.
Variable now : nat → Z.

Lemma setOnInsert_group_readings (update : value) n g n' :
  setOnInsert_group update now n = Some (g, n') → (n ≤ n' ≤ S n)%nat.
Proof.
  unfold setOnInsert_group, bind, lift, ret, new_Date.
  destruct (get update "$setOnInsert"); [|done].
  destruct (not_targeted update "createdAt") as [[]|]; [| |done];
    intros [= _ <-]; lia.
Qed.

Lemma timestampUpdateModel_readings tag (op : gmap string value) n r n' :
  timestampUpdateModel tag op now n = Some (r, n') → (n ≤ n' ≤ S n)%nat.
Proof.
  unfold timestampUpdateModel, bind, lift, ret.
  destruct (get (prop op tag) "update") as [update|]; [|done].
  destruct (isArray update); [intros [= _ <-]; lia|].
  destruct (currentDate_group update); [|done].
  destruct (setOnInsert_group update now n) as [[soi n1]|] eqn:E; [|done].
  apply setOnInsert_group_readings in E. intros [= _ <-]. lia.
Qed.

End Readings.

(** X24.  [timestampUpdateFilter] returns an operator document as it is when
    there is nothing to add: [$set] or [$unset] gives [updatedAt] a truthy
    value and the caller's [$currentDate] group has no entry. *)
Theorem timestampUpdateFilter_nothing_to_add (u : gmap string value) :
  marks u "updatedAt" →
  group u "$currentDate" = ∅ →
  timestampUpdateFilter (VObj u) = Some (VObj u).
Proof.
  intros Hm%marks_targeted Hg. rewrite timestampUpdateFilter_obj.
  unfold stamped_currentDate. by rewrite Hm, Hg, attach_empty.
Qed.

(** The caller unsets [updatedAt] with the marker [1]. *)
Lemma timestampUpdateFilter_nothing_to_add_witness :
  timestampUpdateFilter (VObj {[ "$unset" := VObj {[ "updatedAt" := VNum 1 ]} ]})
  = Some (VObj {[ "$unset" := VObj {[ "updatedAt" := VNum 1 ]} ]}).
Proof.
  apply timestampUpdateFilter_nothing_to_add.
  - exists "$unset", {[ "updatedAt" := VNum 1 ]}, (VNum 1).
    split; [apply list_elem_of_further, list_elem_of_here|].
    split; [vm_compute; reflexivity|].
    split; [vm_compute; reflexivity | reflexivity].
  - vm_compute; reflexivity.
Defined.

(** X25.  Whatever the operation, a call of [timestampBulkWriteOperation]
    that returns has read the clock at most twice. *)
Theorem bulk_reads_clock_at_most_twice (now : nat → Z) (n : nat)
    (op r : gmap string value) (n' : nat) :
  timestampBulkWriteOperation op now n = Some (r, n') →
  (n ≤ n' ≤ n + 2)%nat.
Proof.
  unfold timestampBulkWriteOperation.
  destruct (js_in "insertOne" op).
  { unfold bind, new_Date, lift, ret.
    destruct (get (prop op "insertOne") "document"); [|done].
    intros [= _ <-]. lia. }
  destruct (js_in "updateOne" op).
  { intros H%timestampUpdateModel_readings. lia. }
  destruct (js_in "updateMany" op).
  { intros H%timestampUpdateModel_readings. lia. }
  destruct (js_in "replaceOne" op).
  { unfold bind, new_Date, lift, ret.
    destruct (get (prop op "replaceOne") "replacement"); [|done].
    intros [= _ <-]. lia. }
  unfold ret. intros [= _ <-]. lia.
Qed.

(** The [updateOne] operation of the scenario reads it once. *)
Lemma bulk_reads_clock_at_most_twice_witness : (0 ≤ 1 ≤ 0 + 2)%nat.
Proof.
  apply (bulk_reads_clock_at_most_twice Z.of_nat 0
           {[ "updateOne" :=
              VObj {[ "update" :=
                      VObj {[ "$set" := VObj {[ "a" := VNum 1 ]} ]} ]} ]}
           {[ "updateOne" :=
              VObj {[ "update" :=
                      VObj (<[ "$set" := VObj {[ "a" := VNum 1 ]} ]>
                              (<[ "$currentDate" :=
                                  VObj {[ "updatedAt" := VBool true ]} ]>
                                 {[ "$setOnInsert" :=
                                    VObj {[ "createdAt" := VDate 0 ]} ]})) ]} ]}
           1).
  vm_compute; reflexivity.
Defined.
